(** * Conference check-in: a shallow embedding of [checkin.py]

    The development follows the layout of the script: text helpers, the
    part of Python's [datetime] the script relies on, the calendar
    functions ([get_todays_events], [is_conference_day]), the survey driver
    ([submit_survey]) and the entry point ([main]).  Definitions come first,
    the properties of the specification after them. *)

From Stdlib Require Import ZArith List Bool Ascii String DecimalString Lia.
From Stdlib Require Import Permutation.
Import ListNotations.

Open Scope string_scope.
Open Scope Z_scope.

(* ====================================================================== *)
(** * Text *)
(* ====================================================================== *)

(** A Python [str] is kept as the [string] of its characters.

    Python's [str.lower].  The script only needs it to be a function on
    strings that leaves the empty string alone; everything below is stated
    for any such function, and [ascii_lowercase] is the instance used to
    run the definitions on 7-bit text. *)
Class Lowercase := {
  lower : string -> string;
  lower_empty : lower "" = ""
}.

Definition lower_ascii (c : ascii) : ascii :=
  let n := N_of_ascii c in
  if ((65 <=? n) && (n <=? 90))%N then ascii_of_N (n + 32) else c.

Fixpoint lower_string (s : string) : string :=
  match s with
  | EmptyString => EmptyString
  | String c t => String (lower_ascii c) (lower_string t)
  end.

#[export] Instance ascii_lowercase : Lowercase :=
  {| lower := lower_string; lower_empty := eq_refl |}.

(** Python's [needle in hay] on strings: [needle] occurs in [hay] at some
    position. *)
Fixpoint str_in (needle hay : string) : bool :=
  if prefix needle hay then true
  else match hay with
       | EmptyString => false
       | String _ t => str_in needle t
       end.

(** [sep.join(parts)]. *)
Definition join (sep : string) (parts : list string) : string :=
  String.concat sep parts.

(** [str(n)] for an integer. *)
Definition str_of_Z (n : Z) : string := NilEmpty.string_of_int (Z.to_int n).

(** The line feed inside a printed text. *)
Definition LF : string := String (ascii_of_N 10) EmptyString.

(** [s[:n]]. *)
Definition take (n : nat) (s : string) : string := substring 0 n s.

(** Decimal rendering with leading zeros, as [%m], [%d] and [%Y] produce. *)
Definition digit (n : Z) : string :=
  String (ascii_of_N (48 + Z.to_N (n mod 10))) EmptyString.

Definition pad2 (n : Z) : string := digit (n / 10) ++ digit n.

Definition pad4 (n : Z) : string :=
  digit (n / 1000) ++ digit (n / 100) ++ digit (n / 10) ++ digit n.

(* ====================================================================== *)
(** * Dates and times

    The fragment of Python's [datetime] module used by the script:
    [date], [datetime] (naive or aware), [tzinfo], [datetime.now],
    [astimezone], [replace(tzinfo=...)] and [strftime] for the two formats
    that occur.  Years are taken in the range the module supports, so no
    overflow error is modelled. *)
(* ====================================================================== *)

(** A [timedelta], counted in microseconds. *)
Definition timedelta := Z.

Record date := mkdate { year : Z; month : Z; day : Z }.

Definition date_eqb (a b : date) : bool :=
  (year a =? year b) && (month a =? month b) && (day a =? day b).

(** A time zone object.  [tz_id] stands for the identity of the object
    (Python's [is]); [utcoffset] maps a wall-clock reading of the zone to
    the offset in force; [fromutc] maps a UTC reading to the wall clock of
    the zone.  Readings are in microseconds, see [wall_us]. *)
Record tzinfo := mktz {
  tz_id : string;
  utcoffset : Z -> timedelta;
  fromutc : Z -> Z
}.

Definition ZoneInfo := tzinfo.

Record datetime := mkdatetime {
  dt_date : date;
  hour : Z;
  minute : Z;
  second : Z;
  microsecond : Z;
  dt_tzinfo : option tzinfo
}.

Definition is_leap (y : Z) : bool :=
  (y mod 4 =? 0) && (negb (y mod 100 =? 0) || (y mod 400 =? 0)).

Definition days_before_year (y : Z) : Z :=
  let p := y - 1 in p * 365 + p / 4 - p / 100 + p / 400.

Definition DAYS_IN_MONTH : list Z :=
  [31; 28; 31; 30; 31; 30; 31; 31; 30; 31; 30; 31].

Definition DAYS_BEFORE_MONTH : list Z :=
  [0; 31; 59; 90; 120; 151; 181; 212; 243; 273; 304; 334].

Definition days_in_month_plain (m : Z) : Z :=
  nth (Z.to_nat (m - 1)) DAYS_IN_MONTH 0.

Definition days_before_month (y m : Z) : Z :=
  nth (Z.to_nat (m - 1)) DAYS_BEFORE_MONTH 0
  + (if (2 <? m) && is_leap y then 1 else 0).

(** [date.toordinal()]: 0001-01-01 is day 1. *)
Definition ymd2ord (d : date) : Z :=
  days_before_year (year d) + days_before_month (year d) (month d) + day d.

Definition DI400Y : Z := 146097.
Definition DI100Y : Z := 36524.
Definition DI4Y : Z := 1461.

(** [date.fromordinal(n)]. *)
Definition ord2ymd (n : Z) : date :=
  let n := n - 1 in
  let n400 := n / DI400Y in
  let n := n mod DI400Y in
  let y := n400 * 400 + 1 in
  let n100 := n / DI100Y in
  let n := n mod DI100Y in
  let n4 := n / DI4Y in
  let n := n mod DI4Y in
  let n1 := n / 365 in
  let n := n mod 365 in
  let y := y + n100 * 100 + n4 * 4 + n1 in
  if (n1 =? 4) || (n100 =? 4) then mkdate (y - 1) 12 31
  else
    let leapyear := (n1 =? 3) && (negb (n4 =? 24) || (n100 =? 3)) in
    let m := Z.shiftr (n + 50) 5 in
    let preceding :=
      nth (Z.to_nat (m - 1)) DAYS_BEFORE_MONTH 0
      + (if (2 <? m) && leapyear then 1 else 0) in
    if n <? preceding then
      let m' := m - 1 in
      let preceding' :=
        preceding - (days_in_month_plain m'
                     + (if (m' =? 2) && leapyear then 1 else 0)) in
      mkdate y m' (n - preceding' + 1)
    else mkdate y m (n - preceding + 1).

Definition US_PER_SECOND : Z := 1000000.
Definition US_PER_DAY : Z := 86400 * US_PER_SECOND.

(** The wall-clock reading of a [datetime], its [tzinfo] left aside. *)
Definition wall_us (t : datetime) : Z :=
  (((ymd2ord (dt_date t) * 24 + hour t) * 60 + minute t) * 60 + second t)
  * US_PER_SECOND + microsecond t.

Definition of_wall_us (n : Z) (tz : option tzinfo) : datetime :=
  let s := n / US_PER_SECOND in
  let m := s / 60 in
  let h := m / 60 in
  {| dt_date := ord2ymd (h / 24);
     hour := h mod 24;
     minute := m mod 60;
     second := s mod 60;
     microsecond := n mod US_PER_SECOND;
     dt_tzinfo := tz |}.

(** [t.replace(tzinfo=tz)]: the fields are kept as they are. *)
Definition replace_tzinfo (t : datetime) (tz : tzinfo) : datetime :=
  {| dt_date := dt_date t; hour := hour t; minute := minute t;
     second := second t; microsecond := microsecond t;
     dt_tzinfo := Some tz |}.

(** [t.astimezone(tz)] for an aware [t] whose zone is [mytz]: the same
    object is returned when [tz is mytz], otherwise the reading is taken to
    UTC with [mytz] and from there to the wall clock of [tz]. *)
Definition astimezone (t : datetime) (mytz tz : tzinfo) : datetime :=
  if String.eqb (tz_id tz) (tz_id mytz) then t
  else of_wall_us (fromutc tz (wall_us t - utcoffset mytz (wall_us t)))
                  (Some tz).

(** [t.date()]. *)
Definition date_of (t : datetime) : date := dt_date t.

(** [date.weekday()], Monday being 0. *)
Definition weekday (d : date) : Z := (ymd2ord d + 6) mod 7.

Definition DAY_NAMES : list string :=
  ["Monday"; "Tuesday"; "Wednesday"; "Thursday"; "Friday"; "Saturday";
   "Sunday"].

Definition MONTH_NAMES : list string :=
  ["January"; "February"; "March"; "April"; "May"; "June"; "July";
   "August"; "September"; "October"; "November"; "December"].

(** [strftime("%m/%d/%Y")]. *)
Definition strftime_mdY (t : datetime) : string :=
  let d := dt_date t in
  pad2 (month d) ++ "/" ++ pad2 (day d) ++ "/" ++ pad4 (year d).

(** [strftime('%A, %B %d, %Y')]. *)
Definition strftime_long (t : datetime) : string :=
  let d := dt_date t in
  nth (Z.to_nat (weekday d)) DAY_NAMES "" ++ ", "
  ++ nth (Z.to_nat (month d - 1)) MONTH_NAMES "" ++ " "
  ++ pad2 (day d) ++ ", " ++ pad4 (year d).

(** The clock of the machine: the current UTC reading and the zone the
    operating system is set to. *)
Record Clock := mkclock {
  utc_now : Z;
  system_tz : tzinfo
}.

(** [datetime.now(tz)]: with a zone, the aware local time of that zone;
    with none, the naive local time of the system. *)
Definition datetime_now (c : Clock) (tz : option tzinfo) : datetime :=
  match tz with
  | Some z => of_wall_us (fromutc z (utc_now c)) (Some z)
  | None => of_wall_us (fromutc (system_tz c) (utc_now c)) None
  end.

(** A zone with a constant offset, such as UTC or a zone without daylight
    saving. *)
Definition fixed_zone (name : string) (off : timedelta) : tzinfo :=
  {| tz_id := name; utcoffset := fun _ => off; fromutc := fun u => u + off |}.

Definition hours (h : Z) : timedelta := h * 3600 * US_PER_SECOND.

(* ====================================================================== *)
(** * Calendar functions *)
(* ====================================================================== *)

(** The value of a [DTSTART] property ([dtstart.dt]): a calendar date or a
    date-time. *)
Inductive dt_value :=
| DDate (d : date)
| DDateTime (t : datetime).

(** [hasattr(v, "hour")] holds of a [datetime] and not of a [date]; so
    does [hasattr(v, "date")]. *)
Definition has_hour_attr (v : dt_value) : bool :=
  match v with DDate _ => false | DDateTime _ => true end.

(** A component of a parsed calendar, with the two properties the script
    reads and its sub-components. *)
#[warnings="-register-all"]
Inductive Component := mkcomponent {
  name : string;
  DTSTART : option dt_value;
  SUMMARY : option string;
  subcomponents : list Component
}.

Definition Calendar := Component.

(** [Component.walk()]: the component itself, then the walk of each
    sub-component, in order. *)
Fixpoint walk (c : Component) : list Component :=
  c :: (fix walk_all (l : list Component) : list Component :=
          match l with
          | [] => []
          | s :: rest => (walk s ++ walk_all rest)%list
          end) (subcomponents c).

(** An element of the list [get_todays_events] returns: a dict with the
    keys ["summary"] and ["start"]. *)
Record event := mkevent {
  summary : string;
  start : dt_value
}.

(** [time_windows], lines 72-75. *)
Definition time_windows : list (string * (Z * Z)) :=
  [("8AM", (7, 10)); ("12PM", (11, 14))].

(** [d.get(k, default)] on a dict kept as an association list. *)
Fixpoint dict_get {V : Type} (d : list (string * V)) (k : string)
    (default : V) : V :=
  match d with
  | [] => default
  | (k', v) :: rest => if String.eqb k' k then v else dict_get rest k default
  end.

(** Truth value of an optional string: [None] and [""] are false. *)
Definition truthy (s : option string) : bool :=
  match s with
  | None => false
  | Some s => negb (String.eqb s "")
  end.

(** Lines 95-98: the start of the event on the wall clock of [tz]. *)
Definition local_dt (tz : ZoneInfo) (event_dt : datetime) : datetime :=
  match dt_tzinfo event_dt with
  | Some mytz => astimezone event_dt mytz tz
  | None => replace_tzinfo event_dt tz
  end.

(** Lines 93-102: [true] when the [continue] of line 102 is reached, that
    is when the event is dropped by the time window. *)
Definition outside_window (tz : ZoneInfo) (lecture_time : option string)
    (event_dt : dt_value) : bool :=
  match lecture_time, event_dt with
  | Some label, DDateTime t =>
      if truthy lecture_time && has_hour_attr event_dt then
        let '(start_hour, end_hour) := dict_get time_windows label (0, 24) in
        let h := hour (local_dt tz t) in
        negb ((start_hour <=? h) && (h <? end_hour))
      else false
  | _, _ => false
  end.

(** Line 104: [str(component.get("SUMMARY", ""))]. *)
Definition summary_of (component : Component) : string :=
  match SUMMARY component with
  | Some s => s
  | None => ""
  end.

(** Line 87: [event_dt.date()] for a [datetime], the value itself for a
    [date]. *)
Definition event_date_of (event_dt : dt_value) : date :=
  match event_dt with
  | DDateTime t => date_of t
  | DDate d => d
  end.

(** The loop of lines 77-108 over the walked components; [events] is the
    list built so far. *)
Fixpoint events_loop (today : date) (tz : ZoneInfo)
    (lecture_time : option string) (components : list Component)
    (events : list event) : list event :=
  match components with
  | [] => events
  | component :: rest =>
      if negb (String.eqb (name component) "VEVENT") then
        events_loop today tz lecture_time rest events
      else
        match DTSTART component with
        | None => events_loop today tz lecture_time rest events
        | Some event_dt =>
            let event_date := event_date_of event_dt in
            if negb (date_eqb event_date today) then
              events_loop today tz lecture_time rest events
            else if outside_window tz lecture_time event_dt then
              events_loop today tz lecture_time rest events
            else
              let summary := summary_of component in
              events_loop today tz lecture_time rest
                (events ++ [{| summary := summary; start := event_dt |}])%list
        end
  end.

Definition get_todays_events (clock : Clock) (cal : Calendar) (tz : ZoneInfo)
    (lecture_time : option string) : list event :=
  let today := date_of (datetime_now clock (Some tz)) in
  events_loop today tz lecture_time (walk cal) [].

(** The inner loop of [is_conference_day] (lines 123-125) for one event:
    the first keyword whose lowercase form occurs in the lowercase
    summary. *)
Fixpoint keyword_loop `{Lowercase} (summary_lower : string)
    (skip_keywords : list string) : option string :=
  match skip_keywords with
  | [] => None
  | keyword :: rest =>
      if str_in (lower keyword) summary_lower then Some keyword
      else keyword_loop summary_lower rest
  end.

(** The outer loop (lines 121-125): the value returned from inside the
    loop, if any. *)
Fixpoint skip_loop `{Lowercase} (events : list event)
    (skip_keywords : list string) : option (bool * string) :=
  match events with
  | [] => None
  | event :: rest =>
      match keyword_loop (lower (summary event)) skip_keywords with
      | Some keyword =>
          Some (false, "Found skip keyword '" ++ keyword ++ "' in event: "
                       ++ summary event)
      | None => skip_loop rest skip_keywords
      end
  end.

Definition is_conference_day `{Lowercase} (events : list event)
    (skip_keywords : list string) : bool * string :=
  match events with
  | [] => (false, "No events found for today")
  | _ :: _ =>
      match skip_loop events skip_keywords with
      | Some result => result
      | None =>
          let event_names := join ", " (map summary events) in
          (true, "Conference day detected. Events: " ++ event_names)
      end
  end.

(* ====================================================================== *)
(** * Effects

    The script prints, drives a browser and may raise.  A computation takes
    the state of the run and gives back either the exception raised or a
    value, with the state reached; the state is kept when an exception
    travels, as in Python. *)
(* ====================================================================== *)

(** An exception, kept as the text [str(e)] prints. *)
Definition Exception := string.

(** Selectors of elements of the page, as the script builds them. *)
Inductive locator :=
| Locator (selector : string)                      (* page.locator(sel) *)
| SubLocator (parent : locator) (selector : string) (* l.locator(sel) *)
| LFirst (l : locator)                              (* l.first *)
| LLast (l : locator)                               (* l.last *)
| LNth (l : locator) (index : Z)                    (* l.nth(i) *)
| LOr (a b : locator).                              (* a.or_(b) *)

(** Calls to the browser automation library. *)
Inductive action :=
| StartPlaywright                    (* entering [with sync_playwright()] *)
| StopPlaywright                     (* leaving it *)
| Launch (headless : bool)           (* p.chromium.launch(headless=...) *)
| NewPage                            (* browser.new_page() *)
| Goto (url wait_until : string)     (* page.goto(url, wait_until=...) *)
| WaitForTimeout (ms : Z)            (* page.wait_for_timeout(ms) *)
| Fill (l : locator) (value : string)
| Click (l : locator)
| Pause                              (* page.pause() *)
| Close.                             (* browser.close() *)

(** The state of a run: the state of the browser (whatever the automation
    library and the remote form keep), the calls made to the browser so far
    and the lines printed so far. *)
Record State (B : Type) := mkstate {
  browser : B;
  calls : list action;
  stdout : list string
}.
Arguments mkstate {B}.
Arguments browser {B}.
Arguments calls {B}.
Arguments stdout {B}.

Definition M (B A : Type) : Type := State B -> (Exception + A) * State B.

Definition ret {B A : Type} (a : A) : M B A := fun st => (inr a, st).

Definition bind {B A C : Type} (m : M B A) (k : A -> M B C) : M B C :=
  fun st =>
    match m st with
    | (inl e, st') => (inl e, st')
    | (inr a, st') => k a st'
    end.

Declare Scope script_scope.
Delimit Scope script_scope with script.
Notation "x <- c1 ;; c2" := (bind c1 (fun x => c2))
  (at level 61, c1 at next level, right associativity) : script_scope.
Notation "c1 ;; c2" := (bind c1 (fun _ => c2))
  (at level 61, right associativity) : script_scope.
Open Scope script_scope.

Definition raise {B A : Type} (e : Exception) : M B A :=
  fun st => (inl e, st).

(** [try: body  except Exception as e: handler e]. *)
Definition try_except {B A : Type} (body : M B A) (handler : Exception -> M B A)
    : M B A :=
  fun st =>
    match body st with
    | (inl e, st') => handler e st'
    | (inr a, st') => (inr a, st')
    end.

(** [try: body  finally: cleanup]: the cleanup always runs; an exception it
    raises replaces the outcome of the body. *)
Definition try_finally {B A : Type} (body : M B A) (cleanup : M B unit)
    : M B A :=
  fun st =>
    match body st with
    | (r, st') =>
        match cleanup st' with
        | (inl e, st'') => (inl e, st'')
        | (inr _, st'') => (r, st'')
        end
    end.

(** [print(line)]. *)
Definition print {B : Type} (line : string) : M B unit :=
  fun st => (inr tt, mkstate (browser st) (calls st) (stdout st ++ [line])).

(** What the outside world answers: how the browser reacts to a call (an
    exception or not, and its next state), what fetching and parsing the
    calendar at a URL gives, the clock, and the zone database. *)
Record World (B : Type) := mkworld {
  perform : action -> B -> option Exception * B;
  fetch : string -> Exception + Calendar;
  clock : Clock;
  zone_of : string -> ZoneInfo
}.
Arguments mkworld {B}.
Arguments perform {B}.
Arguments fetch {B}.
Arguments clock {B}.
Arguments zone_of {B}.

(** One call to the browser. *)
Definition call {B : Type} (W : World B) (a : action) : M B unit :=
  fun st =>
    let '(r, b) := perform W a (browser st) in
    let st' := mkstate b (calls st ++ [a]) (stdout st) in
    match r with
    | Some e => (inl e, st')
    | None => (inr tt, st')
    end.

(** [with sync_playwright() as p: body]. *)
Definition with_playwright {B A : Type} (W : World B) (body : M B A) : M B A :=
  call W StartPlaywright ;; try_finally body (call W StopPlaywright).

(** [fetch_calendar(url)], lines 52-56. *)
Definition fetch_calendar {B : Type} (W : World B) (url : string)
    : M B Calendar :=
  match fetch W url with
  | inl e => raise e
  | inr cal => ret cal
  end.

(* ====================================================================== *)
(** * Configuration *)
(* ====================================================================== *)

Record Config := mkconfig {
  cfg_name : string;
  calendar_url : string;
  survey_url : string;
  timezone : string;
  skip_keywords : list string;
  default_responses : list Z;
  comment : string
}.

Definition DEFAULT_CONFIG : Config :=
  {| cfg_name := "Your Name";
     calendar_url :=
       "https://calendar.google.com/calendar/ical/ucsfrad%40gmail.com/public/basic.ics";
     survey_url := "https://ucsf.co1.qualtrics.com/jfe/form/SV_8kUOSKMVlxBzCp8";
     timezone := "America/Los_Angeles";
     skip_keywords := ["admin"; "wellness"];
     default_responses := [5; 5; 5];
     comment := "" |}.

(* ====================================================================== *)
(** * Form submission *)
(* ====================================================================== *)

(** The control clicked to leave page 1, lines 190-196. *)
Definition next_button : locator :=
  LOr (LOr (LOr (Locator "button[aria-label='Next']")
                (Locator "button:has-text('→')"))
           (Locator ".NextButton"))
      (Locator "button >> nth=-1").

(** The control clicked to submit page 2, lines 263-267. *)
Definition submit_button : locator :=
  LOr (LOr (Locator "button[aria-label='Next']")
           (Locator "button:has-text('→')"))
      (Locator ".NextButton").

(** The alternatives of a locator built with [or_], in the order they were
    given. *)
Fixpoint candidates (l : locator) : list locator :=
  match l with
  | LOr a b => (candidates a ++ candidates b)%list
  | _ => [l]
  end.

(** The text input of page 2 that holds the date, line 206. *)
Definition date_field : locator := LFirst (Locator "input[type='text']").

Definition likert_map : list (Z * string) :=
  [(1, "Strongly disagree"); (2, "Disagree"); (3, "Neutral"); (4, "Agree");
   (5, "Strongly Agree")].

Definition questions : list string :=
  ["The content of the lecture was relevant and helpful";
   "The lecture format was effective for my learning";
   "The lecturer was competent and taught effectively"].

(** [likert_map[response]]: a [KeyError] when the key is missing. *)
Fixpoint likert_lookup {B : Type} (d : list (Z * string)) (response : Z)
    : M B string :=
  match d with
  | [] => raise (str_of_Z response)
  | (k, v) :: rest => if k =? response then ret v else likert_lookup rest response
  end.

(** The loop of lines 235-249 over [enumerate(zip(questions, responses))];
    [i] is the index of the head of [pairs]. *)
Fixpoint likert_loop {B : Type} (W : World B) (i : Z)
    (pairs : list (string * Z)) : M B unit :=
  match pairs with
  | [] => ret tt
  | (question_text, response) :: rest =>
      response_text <- likert_lookup likert_map response ;;
      print ("  Q" ++ str_of_Z (i + 1) ++ ": " ++ response_text) ;;
      let question_container :=
        SubLocator (SubLocator (Locator ("text=" ++ question_text)) "..") ".." in
      try_except
        (call W (Click (LFirst (SubLocator question_container
                                  ("text=/" ++ response_text ++ "/i")))))
        (fun _ =>
           call W (Click (LNth (Locator ("text=/" ++ response_text ++ "/i")) i))) ;;
      likert_loop W (i + 1) rest
  end.

(** The date typed into the form, line 159: the local date of the machine,
    no zone being given to [datetime.now]. *)
Definition survey_today (c : Clock) : string :=
  strftime_mdY (datetime_now c None).

Definition submit_survey {B : Type} (W : World B) (name lecture_time : string)
    (responses : list Z) (comment survey_url : string) (dry_run : bool)
    : M B bool :=
  let today := survey_today (clock W) in
  with_playwright W
    (call W (Launch (negb dry_run)) ;;
     call W NewPage ;;
     try_finally
       (try_except
          (print ("Loading survey: " ++ survey_url) ;;
           call W (Goto survey_url "networkidle") ;;
           call W (WaitForTimeout 1000) ;;
           (* Page 1 *)
           print "Filling Page 1..." ;;
           call W (Fill (LFirst (Locator "textarea")) name) ;;
           call W (Click (LFirst (Locator "text=General Conference"))) ;;
           (if dry_run then
              print (LF ++ "[DRY RUN] Page 1 filled. Check the browser, then click 'Resume' in the Playwright Inspector.") ;;
              call W Pause
            else ret tt) ;;
           call W (Click next_button) ;;
           call W (WaitForTimeout 1000) ;;
           (* Page 2 *)
           print "Filling Page 2..." ;;
           call W (Click date_field) ;;
           call W (Fill date_field "") ;;
           call W (Fill date_field today) ;;
           print ("  Date: " ++ today) ;;
           call W (Click (LFirst (Locator ("text=" ++ lecture_time)))) ;;
           print ("  Time: " ++ lecture_time) ;;
           likert_loop W 0 (combine questions responses) ;;
           (if negb (String.eqb comment "") then
              call W (Fill (LLast (Locator "textarea")) comment) ;;
              print ("  Comment: " ++ take 50 comment ++ "...")
            else ret tt) ;;
           (if dry_run then
              print (LF ++ "[DRY RUN] Page 2 filled. Check the browser, then click 'Resume' to submit (or close browser to cancel).") ;;
              call W Pause
            else
              call W (Click submit_button) ;;
              call W (WaitForTimeout 2000) ;;
              print "Survey submitted successfully!") ;;
           ret true)
          (fun e =>
             print ("Error during form submission: " ++ e) ;;
             (if dry_run then
                print "Browser will stay open for debugging. Click 'Resume' in Playwright Inspector to close." ;;
                call W Pause
              else ret tt) ;;
             ret false))
       (call W Close)).

(* ====================================================================== *)
(** * Main *)
(* ====================================================================== *)

(** The namespace [parse_args] returns. *)
Record Args := mkargs {
  time : string;
  dry_run : bool;
  force : bool
}.

(** Lines 309-347.  [inl code] inside the calendar step stands for the
    [return 1] of line 325, which leaves [main] from within the handler. *)
Definition main `{Lowercase} {B : Type} (W : World B) (CONFIG : Config)
    (args : Args) : M B Z :=
  let tz := zone_of W (timezone CONFIG) in
  print ("=== UCSF Conference Check-in (" ++ time args ++ ") ===") ;;
  print ("Date: " ++ strftime_long (datetime_now (clock W) (Some tz))) ;;
  print "" ;;
  (* Step 1: fetch and check calendar *)
  print "Checking calendar..." ;;
  step1 <-
    try_except
      (cal <- fetch_calendar W (calendar_url CONFIG) ;;
       let events := get_todays_events (clock W) cal tz (Some (time args)) in
       let '(is_conf, reason) :=
         is_conference_day events (skip_keywords CONFIG) in
       print ("  " ++ reason) ;;
       ret (inr is_conf))
      (fun e =>
         print ("  Warning: Could not fetch calendar: " ++ e) ;;
         if negb (force args) then
           print "  Use --force to submit anyway." ;;
           ret (inl 1)
         else
           print "  Proceeding anyway due to --force flag." ;;
           ret (inr true)) ;;
  match step1 with
  | inl code => ret code
  | inr is_conf =>
      print "" ;;
      (* Step 2: decide whether to submit *)
      if negb is_conf && negb (force args) then
        print "No conference today. Skipping submission." ;;
        ret 0
      else
        (* Step 3: submit the survey *)
        print "Submitting survey..." ;;
        success <-
          submit_survey W (cfg_name CONFIG) (time args)
            (default_responses CONFIG) (comment CONFIG) (survey_url CONFIG)
            (dry_run args) ;;
        ret (if success then 0 else 1)
  end.

(** [exit(main())]: the exit status of the process; an exception that
    leaves [main] ends the interpreter with status 1. *)
Definition exit_status (r : Exception + Z) : Z :=
  match r with
  | inl _ => 1
  | inr code => code
  end.

(* ====================================================================== *)
(** * Vocabulary of the specification *)
(* ====================================================================== *)

(** [needle] occurs somewhere in [hay]. *)
Definition is_substring (needle hay : string) : Prop :=
  exists pre post, hay = pre ++ needle ++ post.

(** The summary contains the keyword as a substring, case left aside. *)
Definition contains_ci `{Lowercase} (summary keyword : string) : Prop :=
  is_substring (lower keyword) (lower summary).

(** The reason returned on a skip, line 125. *)
Definition skip_reason (keyword summary : string) : string :=
  "Found skip keyword '" ++ keyword ++ "' in event: " ++ summary.

(** No keyword of [kws] occurs in the summary of any event of [es]. *)
Definition no_match `{Lowercase} (es : list event) (kws : list string) : Prop :=
  forall e k, In e es -> In k kws -> ~ contains_ci (summary e) k.

(** What one component contributes to the result of [get_todays_events]:
    its event, or nothing. *)
Definition selected (today : date) (tz : ZoneInfo)
    (lecture_time : option string) (c : Component) : list event :=
  if String.eqb (name c) "VEVENT" then
    match DTSTART c with
    | Some v =>
        if date_eqb (event_date_of v) today
           && negb (outside_window tz lecture_time v)
        then [mkevent (summary_of c) v]
        else []
    | None => []
    end
  else [].

(** The time-of-day fields of a [datetime] are in their ranges, as the
    constructor of Python's class demands. *)
Definition valid_time (t : datetime) : Prop :=
  0 <= hour t < 24 /\ 0 <= minute t < 60 /\ 0 <= second t < 60 /\
  0 <= microsecond t < US_PER_SECOND.

(** Two date-times read the same on the wall clock. *)
Definition same_wall_clock (x y : datetime) : Prop :=
  dt_date x = dt_date y /\ hour x = hour y /\ minute x = minute y /\
  second x = second y /\ microsecond x = microsecond y.

(** Every call a computation adds to the log satisfies [P]. *)
Definition only_calls {B A : Type} (P : action -> Prop) (m : M B A) : Prop :=
  forall st, exists new,
    calls (snd (m st)) = (calls st ++ new)%list /\ Forall P new.

(** The number of times the survey driver was entered: each entry starts
    with [sync_playwright()], and nothing else does. *)
Definition is_start (a : action) : bool :=
  match a with StartPlaywright => true | _ => false end.

Definition driver_invocations (l : list action) : nat :=
  List.length (filter is_start l).

(** The value [main] returns for an outcome of the driver, line 347. *)
Definition exit_of_driver (r : Exception + bool) : Exception + Z :=
  match r with
  | inl e => inl e
  | inr success => inr (if success then 0 else 1)
  end.

(** Two states that differ at most in what was printed. *)
Definition same_browser {B : Type} (st1 st2 : State B) : Prop :=
  browser st1 = browser st2 /\ calls st1 = calls st2.

(** A computation whose outcome and whose effect on the browser do not
    depend on what was printed before. *)
Definition stdout_blind {B A : Type} (m : M B A) : Prop :=
  forall st1 st2, same_browser st1 st2 ->
    fst (m st1) = fst (m st2) /\ same_browser (snd (m st1)) (snd (m st2)).

(** [out] is the outcome of a run of [main] from [st] that invoked the
    survey driver once: the browser saw what the driver alone does from
    [st], and the exit status is 0 exactly when the driver returned
    [True]. *)
Definition drives {B : Type} (W : World B) (CONFIG : Config) (args : Args)
    (st : State B) (out : (Exception + Z) * State B) : Prop :=
  let driven :=
    submit_survey W (cfg_name CONFIG) (time args) (default_responses CONFIG)
      (comment CONFIG) (survey_url CONFIG) (dry_run args) st in
  fst out = exit_of_driver (fst driven) /\
  same_browser (snd out) (snd driven) /\
  driver_invocations (calls (snd out)) = S (driver_invocations (calls st)) /\
  exit_status (fst out) = match fst driven with inr true => 0 | _ => 1 end.

(** The run left the browser alone. *)
Definition browser_untouched {B : Type} (st st' : State B) : Prop :=
  same_browser st' st.

(** The configuration with another time zone. *)
Definition with_timezone (CONFIG : Config) (zone : string) : Config :=
  {| cfg_name := cfg_name CONFIG;
     calendar_url := calendar_url CONFIG;
     survey_url := survey_url CONFIG;
     timezone := zone;
     skip_keywords := skip_keywords CONFIG;
     default_responses := default_responses CONFIG;
     comment := comment CONFIG |}.

(** The decision of the classifier on the events of a calendar, as [main]
    computes it. *)
Definition classification `{Lowercase} {B : Type} (W : World B)
    (CONFIG : Config) (args : Args) (cal : Calendar) : bool :=
  fst (is_conference_day
         (get_todays_events (clock W) cal (zone_of W (timezone CONFIG))
            (Some (time args)))
         (skip_keywords CONFIG)).

(** Example data: two zones without daylight saving, a morning in Los
    Angeles, and events around it. *)
Definition Jan_1 : dt_value := DDate (mkdate 2024 1 1).

Definition Los_Angeles : ZoneInfo :=
  fixed_zone "America/Los_Angeles" (hours (-8)).
Definition Tokyo : tzinfo := fixed_zone "Asia/Tokyo" (hours 9).
Definition UTC : tzinfo := fixed_zone "UTC" 0.

(** 2024-01-01 16:30 UTC, that is 08:30 in Los Angeles. *)
Definition morning_clock : Clock :=
  {| utc_now := wall_us (mkdatetime (mkdate 2024 1 1) 16 30 0 0 None);
     system_tz := Los_Angeles |}.

Definition vevent (s : string) (v : dt_value) : Component :=
  {| name := "VEVENT"; DTSTART := Some v; SUMMARY := Some s;
     subcomponents := [] |}.

Definition vcalendar (l : list Component) : Calendar :=
  {| name := "VCALENDAR"; DTSTART := None; SUMMARY := None;
     subcomponents := l |}.

(** A naive date-time on 2024-01-01 at the given hour. *)
Definition naive_at (h : Z) : datetime :=
  mkdatetime (mkdate 2024 1 1) h 0 0 0 None.

(** 01:00 on 2024-01-02 in Tokyo: 08:00 on 2024-01-01 in Los Angeles. *)
Definition tokyo_event : datetime :=
  mkdatetime (mkdate 2024 1 2) 1 0 0 0 (Some Tokyo).

(** 16:00 UTC on 2024-01-01: 08:00 in Los Angeles. *)
Definition utc_event : datetime :=
  mkdatetime (mkdate 2024 1 1) 16 0 0 0 (Some UTC).

(** 23:30 UTC on 2024-01-01, that is 08:30 on 2024-01-02 in Tokyo. *)
Definition tokyo_morning_clock : Clock :=
  {| utc_now := wall_us (mkdatetime (mkdate 2024 1 1) 23 30 0 0 None);
     system_tz := Tokyo |}.

(** 23:00 UTC on 2024-01-01, as a feed that writes its times in UTC has
    it: 08:00 on 2024-01-02 in Tokyo. *)
Definition late_utc_event : datetime :=
  mkdatetime (mkdate 2024 1 1) 23 0 0 0 (Some UTC).

(** The naive date-time 2024-01-02 08:00. *)
Definition naive_tokyo_morning : datetime :=
  mkdatetime (mkdate 2024 1 2) 8 0 0 0 None.

(** A browser that never raises, and worlds around it: one where the
    calendar cannot be fetched, one with a conference this morning, one
    with an administrative day. *)
Definition quiet (a : action) (b : unit) : option Exception * unit :=
  (None, b).

Definition st0 : State unit := mkstate tt [] [].

Definition world_with (answer : Exception + Calendar) (c : Clock)
    : World unit :=
  {| perform := quiet; fetch := fun _ => answer; clock := c;
     zone_of := fun _ => Los_Angeles |}.

Definition timeout_world : World unit :=
  world_with (inl "timed out") morning_clock.

Definition conference_world : World unit :=
  world_with
    (inr (vcalendar [vevent "Grand Rounds" (DDateTime (naive_at 8))]))
    morning_clock.

Definition admin_world : World unit :=
  world_with
    (inr (vcalendar [vevent "Admin Day" (DDateTime (naive_at 8))]))
    morning_clock.



(** [l1] is [l2] with some elements left out, the order kept. *)
Inductive subseq {A : Type} : list A -> list A -> Prop :=
| subseq_nil : subseq [] []
| subseq_skip (x : A) (l1 l2 : list A) : subseq l1 l2 -> subseq l1 (x :: l2)
| subseq_keep (x : A) (l1 l2 : list A) :
    subseq l1 l2 -> subseq (x :: l1) (x :: l2).

(** The event of a component of today, were no window applied. *)
Definition todays (clock : Clock) (tz : ZoneInfo) (cal : Calendar)
    (e : event) : Prop :=
  exists c,
    In c (walk cal) /\ name c = "VEVENT" /\ DTSTART c = Some (start e) /\
    summary e = summary_of c /\
    event_date_of (start e) = date_of (datetime_now clock (Some tz)).

(** Every date-time of the calendar is one Python can build. *)
Definition valid_calendar (cal : Calendar) : Prop :=
  forall c t,
    In c (walk cal) -> DTSTART c = Some (DDateTime t) -> valid_time t.

(** Some keyword of [kws] occurs in the summary of [e], case left aside;
    some event of [es] has such a keyword. *)
Definition vetoes `{Lowercase} (kws : list string) (e : event) : bool :=
  existsb (fun k => str_in (lower k) (lower (summary e))) kws.

Definition vetoed `{Lowercase} (es : list event) (kws : list string) : bool :=
  existsb (vetoes kws) es.

(** Two texts that differ at most in case. *)
Definition same_ci `{Lowercase} (a b : string) : Prop := lower a = lower b.

(* ====================================================================== *)
(** * Loading the configuration

    [load_config] works on dicts of JSON values; the record [Config] above
    is the reading [main] and [submit_survey] make of that dict when they
    index it. *)
(* ====================================================================== *)

(** What [json.load] can return. *)
#[warnings="-register-all"]
Inductive json :=
| JNull
| JBool (b : bool)
| JInt (n : Z)
| JFloat (repr : string)
| JStr (s : string)
| JList (items : list json)
| JObject (items : list (string * json)).

(** A Python dict with string keys: its items in insertion order. *)
Definition pydict := list (string * json).

(** [d.get(k)]. *)
Fixpoint dict_find (d : pydict) (k : string) : option json :=
  match d with
  | [] => None
  | (k', v) :: rest => if String.eqb k' k then Some v else dict_find rest k
  end.

(** [d[k] = v]: the value is replaced where the key stands, or the item is
    added at the end. *)
Fixpoint dict_set (d : pydict) (k : string) (v : json) : pydict :=
  match d with
  | [] => [(k, v)]
  | (k', v') :: rest =>
      if String.eqb k' k then (k', v) :: rest
      else (k', v') :: dict_set rest k v
  end.

(** [{**a, **b}]: the items of [a], then each item of [b] set in turn. *)
Definition dict_merge (a b : pydict) : pydict :=
  fold_left (fun acc item => dict_set acc (fst item) (snd item)) b a.

Definition keys (d : pydict) : list string := map fst d.

(** [type(v).__name__]. *)
Definition type_name (v : json) : string :=
  match v with
  | JNull => "NoneType"
  | JBool _ => "bool"
  | JInt _ => "int"
  | JFloat _ => "float"
  | JStr _ => "str"
  | JList _ => "list"
  | JObject _ => "dict"
  end.

(** [DEFAULT_CONFIG] as the script writes it, lines 28-36. *)
Definition DEFAULT_CONFIG_items : pydict :=
  [("name", JStr "Your Name");
   ("calendar_url",
    JStr "https://calendar.google.com/calendar/ical/ucsfrad%40gmail.com/public/basic.ics");
   ("survey_url",
    JStr "https://ucsf.co1.qualtrics.com/jfe/form/SV_8kUOSKMVlxBzCp8");
   ("timezone", JStr "America/Los_Angeles");
   ("skip_keywords", JList [JStr "admin"; JStr "wellness"]);
   ("default_responses", JList [JInt 5; JInt 5; JInt 5]);
   ("comment", JStr "")].

(** The file [config.json] beside the script, as [load_config] meets it:
    absent, present but failing in [open] or [json.load], or parsed. *)
Inductive ConfigFile :=
| NoFile
| Unreadable (e : Exception)
| Parsed (v : json).

(** [load_config()], lines 38-44.  Unpacking with [**] something that is
    not a dict raises a [TypeError]. *)
Definition load_config (file : ConfigFile) : Exception + pydict :=
  match file with
  | NoFile => inr DEFAULT_CONFIG_items
  | Unreadable e => inl e
  | Parsed (JObject override) =>
      inr (dict_merge DEFAULT_CONFIG_items override)
  | Parsed v => inl ("'" ++ type_name v ++ "' object is not a mapping")
  end.

(** The reading of a configuration dict by the rest of the script: each of
    the seven keys, with the type its use demands. *)
Definition as_str (v : option json) : option string :=
  match v with Some (JStr s) => Some s | _ => None end.

Fixpoint str_items (l : list json) : option (list string) :=
  match l with
  | [] => Some []
  | JStr s :: rest => option_map (cons s) (str_items rest)
  | _ => None
  end.

Fixpoint int_items (l : list json) : option (list Z) :=
  match l with
  | [] => Some []
  | JInt n :: rest => option_map (cons n) (int_items rest)
  | _ => None
  end.

Definition as_str_list (v : option json) : option (list string) :=
  match v with Some (JList l) => str_items l | _ => None end.

Definition as_int_list (v : option json) : option (list Z) :=
  match v with Some (JList l) => int_items l | _ => None end.

Definition config_view (d : pydict) : option Config :=
  match as_str (dict_find d "name"), as_str (dict_find d "calendar_url"),
        as_str (dict_find d "survey_url"), as_str (dict_find d "timezone"),
        as_str_list (dict_find d "skip_keywords"),
        as_int_list (dict_find d "default_responses"),
        as_str (dict_find d "comment") with
  | Some n, Some c, Some s, Some z, Some k, Some r, Some m =>
      Some (mkconfig n c s z k r m)
  | _, _, _, _, _, _, _ => None
  end.

(** The last value [override] gives to [k], the one that counts when the
    items are set in turn. *)
Definition last_binding (override : pydict) (k : string) : option json :=
  dict_find (rev override) k.

(** The calls a computation adds to the log satisfy [Q], as a list. *)
Definition emits {B A : Type} (m : M B A) (Q : list action -> Prop) : Prop :=
  forall st, exists new,
    calls (snd (m st)) = (calls st ++ new)%list /\ Q new.

(** The browser never raises on the call [a]. *)
Definition never_raises {B : Type} (W : World B) (a : action) : Prop :=
  forall b, fst (perform W a b) = None.

(** A rating [likert_map] has a label for. *)
Definition valid_rating (r : Z) : Prop := 1 <= r <= 5.

(** The two clicks of lines 246 and 249 for a question and a label. *)
Definition scoped_click (question_text response_text : string) : action :=
  Click (LFirst (SubLocator
                   (SubLocator (SubLocator (Locator ("text=" ++ question_text))
                                  "..") "..")
                   ("text=/" ++ response_text ++ "/i"))).

Definition fallback_click (response_text : string) (i : Z) : action :=
  Click (LNth (Locator ("text=/" ++ response_text ++ "/i")) i).

(** The clicks of a pass through the loop of lines 235-249 that returns:
    for each question the click inside its container, followed by the
    click on the i-th label of the page when the first one raised. *)
Inductive likert_trace : Z -> list (string * Z) -> list action -> Prop :=
| likert_done (i : Z) : likert_trace i [] []
| likert_scoped (i : Z) (q : string) (r : Z) (text : string)
    (rest : list (string * Z)) (tr : list action) :
    In (r, text) likert_map ->
    likert_trace (i + 1) rest tr ->
    likert_trace i ((q, r) :: rest) (scoped_click q text :: tr)
| likert_fallback (i : Z) (q : string) (r : Z) (text : string)
    (rest : list (string * Z)) (tr : list action) :
    In (r, text) likert_map ->
    likert_trace (i + 1) rest tr ->
    likert_trace i ((q, r) :: rest)
      (scoped_click q text :: fallback_click text i :: tr).


(** A computation that always returns, with a value satisfying [P]. *)
Definition yields {B A : Type} (m : M B A) (P : A -> Prop) : Prop :=
  forall st, exists a, fst (m st) = inr a /\ P a.

(** A computation that always raises. *)
Definition never_returns {B A : Type} (m : M B A) : Prop :=
  forall st, exists e, fst (m st) = inl e.

(** The calls of one run of the driver, read against what the browser
    answers: [b] is the state of the browser when the driver is entered.
    If starting Playwright raises, it is the only call.  Otherwise the stop
    of Playwright is the last call, and before it: the launch alone if the
    launch raises; the launch and the new page if the new page raises; and
    if both succeed, the loading of the survey, what the form takes, and
    the closing of the browser. *)
Definition lifecycle {B : Type} (W : World B) (dry_run : bool)
    (survey_url : string) (b : B) (new : list action) : Prop :=
  match perform W StartPlaywright b with
  | (Some _, _) => new = [StartPlaywright]
  | (None, b0) =>
      match perform W (Launch (negb dry_run)) b0 with
      | (Some _, _) =>
          new = [StartPlaywright; Launch (negb dry_run); StopPlaywright]
      | (None, b1) =>
          match perform W NewPage b1 with
          | (Some _, _) =>
              new = [StartPlaywright; Launch (negb dry_run); NewPage;
                     StopPlaywright]
          | (None, _) =>
              exists mid,
                new = ([StartPlaywright; Launch (negb dry_run); NewPage;
                        Goto survey_url "networkidle"]
                       ++ mid ++ [Close; StopPlaywright])%list
          end
      end
  end.

(** A browser on which [new_page] raises and nothing else does. *)
Definition no_page_world : World unit :=
  {| perform := fun a b =>
                  match a with
                  | NewPage => (Some "Target closed", b)
                  | _ => (None, b)
                  end;
     fetch := fun _ => inl "timed out";
     clock := morning_clock;
     zone_of := fun _ => Los_Angeles |}.

(* ====================================================================== *)
(** * Properties: text *)
(* ====================================================================== *)

Lemma prefix_iff_append (a b : string) :
  prefix a b = true <-> exists t, b = a ++ t.
Proof.
  revert b; induction a as [|c a IH]; intros b.
  - split; [intros _; now exists b | now destruct b].
  - destruct b as [|d b]; simpl.
    + split; [discriminate | intros [t Ht]; discriminate].
    + destruct (ascii_dec c d) as [->|Hcd].
      * rewrite IH. split; intros [t Ht]; exists t; congruence.
      * split; [discriminate | intros [t Ht]; congruence].
Qed.

Lemma str_in_unfold (needle hay : string) :
  str_in needle hay =
  if prefix needle hay then true
  else match hay with
       | EmptyString => false
       | String _ t => str_in needle t
       end.
Proof. destruct hay; reflexivity. Qed.

Lemma str_in_iff (needle hay : string) :
  str_in needle hay = true <-> is_substring needle hay.
Proof.
  unfold is_substring.
  induction hay as [|c hay IH]; rewrite str_in_unfold;
    match goal with |- context [prefix ?a ?b] => destruct (prefix a b) eqn:Hp end.
  - apply prefix_iff_append in Hp as [t Ht].
    split; [intros _; now exists "", t | reflexivity].
  - split; [discriminate|].
    intros [pre [post Heq]].
    destruct pre; [|discriminate].
    assert (prefix needle "" = true) by (apply prefix_iff_append; eauto).
    congruence.
  - apply prefix_iff_append in Hp as [t Ht].
    split; [intros _; now exists "", t | reflexivity].
  - rewrite IH. split.
    + intros [pre [post ->]]. now exists (String c pre), post.
    + intros [pre [post Heq]].
      destruct pre as [|c' pre].
      * assert (prefix needle (String c hay) = true)
          by (apply prefix_iff_append; eauto).
        congruence.
      * simpl in Heq. injection Heq as _ ->. eauto.
Qed.

Lemma str_in_not_iff (needle hay : string) :
  str_in needle hay = false <-> ~ is_substring needle hay.
Proof.
  rewrite <- str_in_iff. destruct (str_in needle hay); split; congruence.
Qed.

Lemma str_in_empty (hay : string) : str_in "" hay = true.
Proof. apply str_in_iff. now exists "", hay. Qed.

(* ====================================================================== *)
(** * Properties: the conference-day classifier *)
(* ====================================================================== *)

Section Classifier.
Context `{Lowercase}.

Lemma keyword_loop_none (s : string) (kws : list string) :
  keyword_loop (lower s) kws = None <->
  (forall k, In k kws -> ~ contains_ci s k).
Proof.
  unfold contains_ci.
  induction kws as [|k kws IH]; simpl.
  - split; [intros _ k [] | reflexivity].
  - destruct (str_in (lower k) (lower s)) eqn:Hk.
    + split; [discriminate|].
      intros Hall. apply str_in_iff in Hk.
      exfalso. apply (Hall k); auto.
    + rewrite IH. apply str_in_not_iff in Hk.
      split.
      * intros Hall k' [<-|Hin]; auto.
      * intros Hall k' Hin. apply Hall; auto.
Qed.

Lemma keyword_loop_some (s : string) (kws : list string) (k : string) :
  keyword_loop (lower s) kws = Some k <->
  exists ks1 ks2,
    kws = (ks1 ++ k :: ks2)%list /\
    (forall k', In k' ks1 -> ~ contains_ci s k') /\
    contains_ci s k.
Proof.
  unfold contains_ci.
  induction kws as [|k0 kws IH]; simpl.
  - split; [discriminate|].
    intros (ks1 & ks2 & Heq & _). now destruct ks1.
  - destruct (str_in (lower k0) (lower s)) eqn:Hk.
    + apply str_in_iff in Hk. split.
      * intros [= <-]. exists [], kws. repeat split; auto.
      * intros (ks1 & ks2 & Heq & Hnone & Hk').
        destruct ks1 as [|k1 ks1]; simpl in Heq.
        -- congruence.
        -- injection Heq as <- _. exfalso. apply (Hnone k0); simpl; auto.
    + apply str_in_not_iff in Hk. rewrite IH. split.
      * intros (ks1 & ks2 & -> & Hnone & Hk').
        exists (k0 :: ks1), ks2. repeat split; auto.
        intros k' [<-|Hin]; auto.
      * intros (ks1 & ks2 & Heq & Hnone & Hk').
        destruct ks1 as [|k1 ks1]; simpl in Heq.
        -- injection Heq as -> _. contradiction.
        -- injection Heq as <- ->. exists ks1, ks2.
           repeat split; auto. intros k' Hin. apply Hnone. simpl; auto.
Qed.

Lemma skip_loop_none (es : list event) (kws : list string) :
  skip_loop es kws = None <-> no_match es kws.
Proof.
  unfold no_match.
  induction es as [|e es IH]; simpl.
  - split; [intros _ e k [] | reflexivity].
  - destruct (keyword_loop (lower (summary e)) kws) as [k|] eqn:Hk.
    + split; [discriminate|].
      intros Hall. apply keyword_loop_some in Hk as (ks1 & ks2 & -> & _ & Hm).
      exfalso. apply (Hall e k); auto using in_elt.
    + rewrite IH. rewrite keyword_loop_none in Hk. split.
      * intros Hall e' k [<-|Hin] Hink; [now apply Hk | now apply Hall].
      * intros Hall e' k Hin. apply Hall; auto.
Qed.

(** The scan stops at the first event that has a matching keyword, on
    the first keyword that matches it. *)
Lemma skip_loop_first (es1 es2 : list event) (e : event)
    (ks1 ks2 : list string) (k : string) :
  no_match es1 (ks1 ++ k :: ks2) ->
  (forall k', In k' ks1 -> ~ contains_ci (summary e) k') ->
  contains_ci (summary e) k ->
  skip_loop (es1 ++ e :: es2) (ks1 ++ k :: ks2)
  = Some (false, skip_reason k (summary e)).
Proof.
  intros Hnone Hks Hk.
  induction es1 as [|e1 es1 IH]; simpl.
  - assert (Hloop : keyword_loop (lower (summary e)) (ks1 ++ k :: ks2)
                    = Some k)
      by (apply keyword_loop_some; exists ks1, ks2; auto).
    now rewrite Hloop.
  - assert (Hloop : keyword_loop (lower (summary e1)) (ks1 ++ k :: ks2)
                    = None).
    { apply keyword_loop_none. intros k' Hin. apply Hnone; simpl; auto. }
    rewrite Hloop. apply IH.
    intros e' k' Hin. apply Hnone. simpl; auto.
Qed.

(** A match somewhere gives a first match. *)
Lemma first_match_exists (es : list event) (kws : list string) :
  (exists e k, In e es /\ In k kws /\ contains_ci (summary e) k) ->
  exists es1 e es2 ks1 k ks2,
    es = (es1 ++ e :: es2)%list /\ kws = (ks1 ++ k :: ks2)%list /\
    no_match es1 kws /\
    (forall k', In k' ks1 -> ~ contains_ci (summary e) k') /\
    contains_ci (summary e) k.
Proof.
  induction es as [|e0 es IH]; intros (e & k & Hine & Hink & Hm).
  - destruct Hine.
  - destruct (keyword_loop (lower (summary e0)) kws) as [k0|] eqn:Hk0.
    + apply keyword_loop_some in Hk0 as (ks1 & ks2 & -> & Hks & Hm0).
      exists [], e0, es, ks1, k0, ks2. repeat split; auto.
      intros e' k' [].
    + rewrite keyword_loop_none in Hk0.
      destruct Hine as [<-|Hine]; [exfalso; now apply (Hk0 k)|].
      destruct IH as (es1 & e1 & es2 & ks1 & k1 & ks2 & -> & -> & Hn & Hks & Hm1);
        [now exists e, k|].
      exists (e0 :: es1), e1, es2, ks1, k1, ks2. repeat split; auto.
      intros e' k' [<-|Hin] Hink'; auto.
Qed.

Lemma is_conference_day_skip (es : list event) (kws : list string)
    (result : bool * string) :
  skip_loop es kws = Some result -> is_conference_day es kws = result.
Proof.
  destruct es as [|e es]; [discriminate|].
  unfold is_conference_day. now intros ->.
Qed.

Lemma contains_ci_empty (s : string) : contains_ci s "".
Proof.
  unfold contains_ci. rewrite lower_empty. now exists "", (lower s).
Qed.

End Classifier.

Lemma ascii_contains_ci (s k : string) :
  str_in (lower_string k) (lower_string s) = true ->
  @contains_ci ascii_lowercase s k.
Proof. intros Hin. now apply str_in_iff. Qed.

Lemma ascii_not_contains_ci (s k : string) :
  str_in (lower_string k) (lower_string s) = false ->
  ~ @contains_ci ascii_lowercase s k.
Proof. intros Hin. now apply str_in_not_iff. Qed.

(** C1: when some event summary contains some skip keyword (case left
    aside), the classifier answers [false] and its reason names the first
    match in event-then-keyword order: the events before it match no
    keyword, the keywords before it do not match its event.  The events
    after the match, and the keywords after it (as long as they match no
    earlier event), can be replaced freely without changing the answer. *)
Theorem C1_first_skip_match `{Lowercase} (events : list event)
    (kws : list string) :
  events <> [] ->
  (exists e k, In e events /\ In k kws /\ contains_ci (summary e) k) ->
  exists es1 e es2 ks1 k ks2,
    events = (es1 ++ e :: es2)%list /\ kws = (ks1 ++ k :: ks2)%list /\
    no_match es1 kws /\
    (forall k', In k' ks1 -> ~ contains_ci (summary e) k') /\
    contains_ci (summary e) k /\
    is_conference_day events kws = (false, skip_reason k (summary e)) /\
    (forall es2' ks2',
        no_match es1 ks2' ->
        is_conference_day (es1 ++ e :: es2') (ks1 ++ k :: ks2')
        = (false, skip_reason k (summary e))).
Proof.
  intros _ Hex.
  destruct (first_match_exists events kws Hex)
    as (es1 & e & es2 & ks1 & k & ks2 & -> & -> & Hnone & Hks & Hk).
  exists es1, e, es2, ks1, k, ks2.
  repeat split; auto.
  - apply is_conference_day_skip. now apply skip_loop_first.
  - intros es2' ks2' Hlater.
    apply is_conference_day_skip, skip_loop_first; auto.
    intros e' k' Hine Hink.
    apply in_app_or in Hink as [Hink | [<- | Hink]].
    + apply Hnone; auto using in_or_app.
    + apply Hnone; auto using in_elt.
    + now apply Hlater.
Qed.

Lemma C1_first_skip_match_witness :
  exists es1 e es2 ks1 k ks2,
    [mkevent "Grand Rounds" Jan_1; mkevent "Admin Day" Jan_1;
     mkevent "Wellness Hour" Jan_1] = (es1 ++ e :: es2)%list /\
    ["wellness"; "admin"] = (ks1 ++ k :: ks2)%list /\
    @no_match ascii_lowercase es1 ["wellness"; "admin"] /\
    (forall k', In k' ks1 -> ~ @contains_ci ascii_lowercase (summary e) k') /\
    @contains_ci ascii_lowercase (summary e) k /\
    @is_conference_day ascii_lowercase
      [mkevent "Grand Rounds" Jan_1; mkevent "Admin Day" Jan_1;
       mkevent "Wellness Hour" Jan_1] ["wellness"; "admin"]
    = (false, skip_reason k (summary e)) /\
    (forall es2' ks2',
        @no_match ascii_lowercase es1 ks2' ->
        @is_conference_day ascii_lowercase (es1 ++ e :: es2') (ks1 ++ k :: ks2')
        = (false, skip_reason k (summary e))).
Proof.
  apply (@C1_first_skip_match ascii_lowercase).
  - discriminate.
  - exists (mkevent "Wellness Hour" Jan_1), "wellness".
    repeat split; simpl; auto. now apply ascii_contains_ci.
Defined.

(** The first match of the example above is the keyword "admin" in the
    second event, although "wellness" comes first among the keywords. *)
Example first_match_is_by_event_first :
  @is_conference_day ascii_lowercase
    [mkevent "Grand Rounds" Jan_1; mkevent "Admin Day" Jan_1;
     mkevent "Wellness Hour" Jan_1] ["wellness"; "admin"]
  = (false, "Found skip keyword 'admin' in event: Admin Day").
Proof. reflexivity. Qed.

(** C2: when the list is not empty and no summary contains a skip keyword,
    the classifier answers [true] and lists every summary, in order, joined
    by [", "]; so it does on the events "Grand Rounds" and "Journal Club"
    with the keyword "wellness". *)
Theorem C2_conference_day `{Lowercase} (events : list event)
    (kws : list string) :
  events <> [] ->
  no_match events kws ->
  is_conference_day events kws
  = (true, "Conference day detected. Events: "
           ++ join ", " (map summary events)).
Proof.
  intros Hne Hnone.
  destruct events as [|e es]; [contradiction|].
  unfold is_conference_day.
  apply skip_loop_none in Hnone. now rewrite Hnone.
Qed.

Lemma C2_conference_day_witness :
  @is_conference_day ascii_lowercase
    [mkevent "Grand Rounds" Jan_1; mkevent "Journal Club" Jan_1]
    ["wellness"]
  = (true, "Conference day detected. Events: Grand Rounds, Journal Club").
Proof.
  rewrite (@C2_conference_day ascii_lowercase).
  - reflexivity.
  - discriminate.
  - intros e k [<- | [<- | []]] [<- | []];
      now apply ascii_not_contains_ci.
Defined.

(** C3 (as written): the reason would be the text "no events found for
    today", in lower case.  It is not. *)
Lemma C3_counterexample :
  @is_conference_day ascii_lowercase [] ["admin"; "wellness"]
  <> (false, "no events found for today").
Proof. discriminate. Qed.

(** C3 (amended): on the empty list the classifier answers [false] with the
    reason "No events found for today", whatever the skip keywords. *)
Theorem C3_no_events `{Lowercase} (kws : list string) :
  is_conference_day [] kws = (false, "No events found for today").
Proof. reflexivity. Qed.

(** C9 (as written): with the empty string among the keywords the reason
    would always name the empty keyword.  A keyword placed before it that
    matches the first event is named instead. *)
Lemma C9_counterexample :
  ~ (forall (L : Lowercase) (e : event) (rest : list event)
            (kws : list string),
        In "" kws ->
        is_conference_day (e :: rest) kws
        = (false, skip_reason "" (summary e))).
Proof.
  intros Hclaim.
  specialize (Hclaim ascii_lowercase (mkevent "Admin Day" Jan_1) []
                     ["admin"; ""]).
  simpl in Hclaim. 
  assert (Hin : "admin" = "" \/ "" = "" \/ False) by auto.
  specialize (Hclaim Hin). discriminate Hclaim.
Qed.

(** C9 (amended): with the empty string among the keywords and a list that
    is not empty, the classifier answers [false] and cites the summary of
    the first event, with the first keyword of the list that this summary
    contains; that keyword is the empty one when no keyword before it is
    contained in the summary. *)
Theorem C9_empty_keyword `{Lowercase} (e : event) (rest : list event)
    (kws : list string) :
  In "" kws ->
  (exists ks1 k ks2,
      kws = (ks1 ++ k :: ks2)%list /\
      (forall k', In k' ks1 -> ~ contains_ci (summary e) k') /\
      contains_ci (summary e) k /\
      is_conference_day (e :: rest) kws = (false, skip_reason k (summary e)))
  /\
  (forall ks1 ks2,
      kws = (ks1 ++ "" :: ks2)%list ->
      (forall k', In k' ks1 -> ~ contains_ci (summary e) k') ->
      is_conference_day (e :: rest) kws = (false, skip_reason "" (summary e))).
Proof.
  intros Hin. split.
  - destruct (first_match_exists [e] kws)
      as (es1 & e1 & es2 & ks1 & k & ks2 & Hes & -> & _ & Hks & Hk).
    { exists e, "". repeat split; simpl; auto. apply contains_ci_empty. }
    assert (e1 = e) as ->.
    { destruct es1 as [|? [|? ?]]; simpl in Hes; try discriminate.
      now injection Hes. }
    exists ks1, k, ks2. repeat split; auto.
    apply is_conference_day_skip.
    apply (skip_loop_first [] rest e ks1 ks2 k); auto.
    intros ? ? [].
  - intros ks1 ks2 -> Hks.
    apply is_conference_day_skip.
    apply (skip_loop_first [] rest e ks1 ks2 ""); auto.
    + intros ? ? [].
    + apply contains_ci_empty.
Qed.

Lemma C9_empty_keyword_witness :
  @is_conference_day ascii_lowercase
    [mkevent "Grand Rounds" Jan_1; mkevent "Admin Day" Jan_1]
    ["wellness"; ""; "admin"]
  = (false, "Found skip keyword '' in event: Grand Rounds").
Proof.
  assert (Hin : In "" ["wellness"; ""; "admin"]) by (simpl; auto).
  destruct (@C9_empty_keyword ascii_lowercase (mkevent "Grand Rounds" Jan_1)
              [mkevent "Admin Day" Jan_1] ["wellness"; ""; "admin"] Hin)
    as [_ Hempty].
  rewrite (Hempty ["wellness"] ["admin"]).
  - reflexivity.
  - reflexivity.
  - intros k' [<- | []]. now apply ascii_not_contains_ci.
Defined.

(* ====================================================================== *)
(** * Properties: the event filter *)
(* ====================================================================== *)

Lemma date_eqb_eq (a b : date) : date_eqb a b = true <-> a = b.
Proof.
  unfold date_eqb. destruct a, b; simpl.
  rewrite !andb_true_iff, !Z.eqb_eq.
  split; [intros [[-> ->] ->]; reflexivity | intros [= -> -> ->]; auto].
Qed.

Lemma events_loop_selected (today : date) (tz : ZoneInfo)
    (lecture_time : option string) (components : list Component)
    (events : list event) :
  events_loop today tz lecture_time components events
  = (events ++ flat_map (selected today tz lecture_time) components)%list.
Proof.
  revert events.
  induction components as [|c rest IH]; intros events; simpl.
  - now rewrite app_nil_r.
  - unfold selected at 1.
    destruct (String.eqb (name c) "VEVENT"); simpl; [|apply IH].
    destruct (DTSTART c) as [v|]; [|apply IH].
    destruct (date_eqb (event_date_of v) today); simpl; [|apply IH].
    destruct (outside_window tz lecture_time v); simpl; [apply IH|].
    rewrite IH, <- app_assoc. reflexivity.
Qed.

(** The events returned are those of the components that pass the three
    tests, in the order of the walk. *)
Lemma get_todays_events_selected (clock : Clock) (cal : Calendar)
    (tz : ZoneInfo) (lecture_time : option string) :
  get_todays_events clock cal tz lecture_time
  = flat_map (selected (date_of (datetime_now clock (Some tz))) tz lecture_time)
             (walk cal).
Proof. unfold get_todays_events. now rewrite events_loop_selected. Qed.

Lemma in_get_todays_events (clock : Clock) (cal : Calendar) (tz : ZoneInfo)
    (lecture_time : option string) (e : event) :
  In e (get_todays_events clock cal tz lecture_time) <->
  exists c,
    In c (walk cal) /\ name c = "VEVENT" /\ DTSTART c = Some (start e) /\
    summary e = summary_of c /\
    event_date_of (start e) = date_of (datetime_now clock (Some tz)) /\
    outside_window tz lecture_time (start e) = false.
Proof.
  rewrite get_todays_events_selected, in_flat_map.
  split.
  - intros (c & Hc & Hsel). exists c. unfold selected in Hsel.
    destruct (String.eqb (name c) "VEVENT") eqn:Hname; [|destruct Hsel].
    destruct (DTSTART c) as [v|]; [|destruct Hsel].
    destruct (date_eqb (event_date_of v) _) eqn:Hdate; [|destruct Hsel].
    destruct (outside_window tz lecture_time v) eqn:Hwin; [destruct Hsel|].
    destruct Hsel as [<-|[]]; simpl.
    apply String.eqb_eq in Hname. apply date_eqb_eq in Hdate. auto 10.
  - intros (c & Hc & Hname & Hstart & Hsum & Hdate & Hwin).
    exists c. split; [assumption|]. unfold selected.
    apply date_eqb_eq in Hdate.
    rewrite Hname, Hstart, Hdate, Hwin. simpl.
    left. destruct e; simpl in *. now subst.
Qed.

(** The two windows of the script, as hour ranges. *)
Lemma outside_window_8AM (tz : ZoneInfo) (t : datetime) :
  outside_window tz (Some "8AM") (DDateTime t)
  = negb ((7 <=? hour (local_dt tz t)) && (hour (local_dt tz t) <? 10)).
Proof. reflexivity. Qed.

Lemma outside_window_12PM (tz : ZoneInfo) (t : datetime) :
  outside_window tz (Some "12PM") (DDateTime t)
  = negb ((11 <=? hour (local_dt tz t)) && (hour (local_dt tz t) <? 14)).
Proof. reflexivity. Qed.

(** When the date the event is written with equals today, a date-time event
    is returned exactly when its local hour is in the window. *)
Lemma window_filter_on_written_date (clock : Clock) (cal : Calendar)
    (tz : ZoneInfo) (c : Component) (t : datetime) (label : string)
    (lo hi : Z) :
  In c (walk cal) -> name c = "VEVENT" -> DTSTART c = Some (DDateTime t) ->
  date_of t = date_of (datetime_now clock (Some tz)) ->
  (label, (lo, hi)) = ("8AM", (7, 10)) \/ (label, (lo, hi)) = ("12PM", (11, 14)) ->
  In (mkevent (summary_of c) (DDateTime t))
     (get_todays_events clock cal tz (Some label))
  <-> lo <= hour (local_dt tz t) < hi.
Proof.
  intros Hc Hname Hstart Hdate Hlabel.
  rewrite in_get_todays_events. simpl.
  assert (Hwin : outside_window tz (Some label) (DDateTime t) = false
                 <-> lo <= hour (local_dt tz t) < hi).
  { destruct Hlabel as [[= -> -> ->] | [= -> -> ->]];
      [rewrite outside_window_8AM | rewrite outside_window_12PM];
      rewrite negb_false_iff, andb_true_iff, Z.leb_le, Z.ltb_lt; reflexivity. }
  rewrite <- Hwin. split.
  - intros (c' & _ & _ & _ & _ & _ & H). exact H.
  - intros H. exists c. auto 10.
Qed.

(** Scenario 3: with the morning window, of three events of today at the
    local hours 9, 10 and 6 only the first is returned. *)
Example morning_window_scenario :
  get_todays_events morning_clock
    (vcalendar [vevent "at nine" (DDateTime (naive_at 9));
                vevent "at ten" (DDateTime (naive_at 10));
                vevent "at six" (DDateTime (naive_at 6))])
    Los_Angeles (Some "8AM")
  = [mkevent "at nine" (DDateTime (naive_at 9))].
Proof. vm_compute. reflexivity. Qed.

(** C4 (the code at the failing inputs): line 89 compares the date as the
    event writes it, before any conversion to the local zone.  An event
    written as 23:00 UTC on 2024-01-01 starts at 08:00 on 2024-01-02 in
    Tokyo; on that morning in Tokyo its local date is today and its local
    hour is inside the morning window, and yet it is not returned.  So it
    is with an event written as 01:00 on 2024-01-02 in Tokyo, on the
    morning of 2024-01-01 in Los Angeles, while the same moment written in
    UTC is returned. *)
Theorem C4_written_date_is_compared :
  (date_of (local_dt Tokyo late_utc_event)
   = date_of (datetime_now tokyo_morning_clock (Some Tokyo))
   /\ hour (local_dt Tokyo late_utc_event) = 8
   /\ get_todays_events tokyo_morning_clock
        (vcalendar [vevent "Grand Rounds" (DDateTime late_utc_event)])
        Tokyo (Some "8AM") = [])
  /\ (date_of (local_dt Los_Angeles tokyo_event)
      = date_of (datetime_now morning_clock (Some Los_Angeles))
      /\ hour (local_dt Los_Angeles tokyo_event) = 8
      /\ get_todays_events morning_clock
           (vcalendar [vevent "Grand Rounds" (DDateTime tokyo_event)])
           Los_Angeles (Some "8AM") = []
      /\ get_todays_events morning_clock
           (vcalendar [vevent "Grand Rounds" (DDateTime utc_event)])
           Los_Angeles (Some "8AM")
         = [mkevent "Grand Rounds" (DDateTime utc_event)]).
Proof. vm_compute. repeat split. Qed.

(** C5: an event whose start is a date without a time is never dropped by
    the time window, whatever the label: it is returned exactly when its
    date is today. *)
Theorem C5_date_only_events (clock : Clock) (cal : Calendar) (tz : ZoneInfo)
    (lecture_time : option string) (c : Component) (d : date) :
  In c (walk cal) -> name c = "VEVENT" -> DTSTART c = Some (DDate d) ->
  outside_window tz lecture_time (DDate d) = false
  /\ (In (mkevent (summary_of c) (DDate d))
          (get_todays_events clock cal tz lecture_time)
      <-> d = date_of (datetime_now clock (Some tz))).
Proof.
  intros Hc Hname Hstart.
  assert (Hwin : outside_window tz lecture_time (DDate d) = false)
    by (now destruct lecture_time).
  split; [exact Hwin|].
  rewrite in_get_todays_events. simpl. split.
  - intros (c' & _ & _ & _ & _ & Hdate & _). exact Hdate.
  - intros Hdate. exists c. auto 10.
Qed.

Lemma C5_date_only_events_witness :
  outside_window Los_Angeles (Some "8AM") (DDate (mkdate 2024 1 1)) = false
  /\ (In (mkevent "Grand Rounds" (DDate (mkdate 2024 1 1)))
          (get_todays_events morning_clock
             (vcalendar [vevent "Grand Rounds" (DDate (mkdate 2024 1 1))])
             Los_Angeles (Some "8AM"))
      <-> mkdate 2024 1 1
          = date_of (datetime_now morning_clock (Some Los_Angeles))).
Proof.
  apply (C5_date_only_events morning_clock
           (vcalendar [vevent "Grand Rounds" (DDate (mkdate 2024 1 1))])
           Los_Angeles (Some "8AM")
           (vevent "Grand Rounds" (DDate (mkdate 2024 1 1)))).
  - simpl. auto.
  - reflexivity.
  - reflexivity.
Defined.

(** A naive date-time and an aware one that, brought to the local zone,
    reads the same on the wall clock get the same answer from the
    time-window test of lines 93-102, for every label. *)
Lemma same_wall_clock_same_window (tz : ZoneInfo)
    (lecture_time : option string) (n a : datetime) (mytz : tzinfo) :
  dt_tzinfo n = None -> dt_tzinfo a = Some mytz ->
  same_wall_clock (astimezone a mytz tz) (replace_tzinfo n tz) ->
  outside_window tz lecture_time (DDateTime n)
  = outside_window tz lecture_time (DDateTime a).
Proof.
  intros Hn Ha (_ & Hhour & _).
  unfold outside_window, local_dt. rewrite Hn, Ha, Hhour. reflexivity.
Qed.

(** C6 (the code at the failing input): on the morning of 2024-01-01 in Los
    Angeles, the naive date-time 2024-01-01 08:00 and the aware date-time
    2024-01-02 01:00 of Tokyo denote the same local wall-clock moment, and
    the time-window test of lines 93-102 answers the same for both.  The
    filter does not: it returns the naive event and drops the aware one,
    with the label "8AM" and with no label, because line 89 compares the
    date as the event writes it.  So it is in Tokyo on the morning of
    2024-01-02 with an event written as 23:00 UTC on 2024-01-01. *)
Theorem C6_same_moment_filtered_differently :
  (same_wall_clock (astimezone tokyo_event Tokyo Los_Angeles)
                   (replace_tzinfo (naive_at 8) Los_Angeles)
   /\ outside_window Los_Angeles (Some "8AM") (DDateTime (naive_at 8))
      = outside_window Los_Angeles (Some "8AM") (DDateTime tokyo_event)
   /\ get_todays_events morning_clock
        (vcalendar [vevent "Grand Rounds" (DDateTime (naive_at 8))])
        Los_Angeles (Some "8AM")
      = [mkevent "Grand Rounds" (DDateTime (naive_at 8))]
   /\ get_todays_events morning_clock
        (vcalendar [vevent "Grand Rounds" (DDateTime tokyo_event)])
        Los_Angeles (Some "8AM") = []
   /\ get_todays_events morning_clock
        (vcalendar [vevent "Grand Rounds" (DDateTime (naive_at 8))])
        Los_Angeles None
      = [mkevent "Grand Rounds" (DDateTime (naive_at 8))]
   /\ get_todays_events morning_clock
        (vcalendar [vevent "Grand Rounds" (DDateTime tokyo_event)])
        Los_Angeles None = [])
  /\ (same_wall_clock (astimezone late_utc_event UTC Tokyo)
                      (replace_tzinfo naive_tokyo_morning Tokyo)
      /\ get_todays_events tokyo_morning_clock
           (vcalendar [vevent "Grand Rounds" (DDateTime naive_tokyo_morning)])
           Tokyo (Some "8AM")
         = [mkevent "Grand Rounds" (DDateTime naive_tokyo_morning)]
      /\ get_todays_events tokyo_morning_clock
           (vcalendar [vevent "Grand Rounds" (DDateTime late_utc_event)])
           Tokyo (Some "8AM") = []).
Proof. vm_compute. repeat split. Qed.

(** The hour of a date-time can be read off its wall-clock reading. *)
Lemma hour_of_wall_us (t : datetime) :
  valid_time t -> hour t = (wall_us t / US_PER_SECOND / 60 / 60) mod 24.
Proof.
  intros (Hh & Hm & Hs & Hus). unfold wall_us.
  rewrite Z.div_add_l, (Z.div_small (microsecond t)), Z.add_0_r
    by (unfold US_PER_SECOND in *; lia).
  rewrite Z.div_add_l, (Z.div_small (second t)), Z.add_0_r by lia.
  rewrite Z.div_add_l, (Z.div_small (minute t)), Z.add_0_r by lia.
  rewrite Z.add_comm, Z.mod_add by lia.
  now rewrite Z.mod_small.
Qed.

Lemma hour_of_wall_us_inv (n : Z) (tz : option tzinfo) :
  hour (of_wall_us n tz) = (n / US_PER_SECOND / 60 / 60) mod 24.
Proof. reflexivity. Qed.

(** A naive date-time whose wall-clock reading is the local reading of the
    moment an aware date-time denotes gets the same answer from the window
    test.  When the aware date-time already carries the local zone it is
    taken as it stands, and the zone is asked to read its own times back. *)
Lemma same_moment_same_window (tz : ZoneInfo) (lecture_time : option string)
    (n a : datetime) (mytz : tzinfo) :
  valid_time n -> valid_time a ->
  dt_tzinfo n = None -> dt_tzinfo a = Some mytz ->
  wall_us n = fromutc tz (wall_us a - utcoffset mytz (wall_us a)) ->
  (tz_id tz = tz_id mytz ->
   fromutc tz (wall_us a - utcoffset mytz (wall_us a)) = wall_us a) ->
  outside_window tz lecture_time (DDateTime n)
  = outside_window tz lecture_time (DDateTime a).
Proof.
  intros Hvn Hva Hn Ha Hmoment Hsame.
  assert (Hhour : hour (astimezone a mytz tz) = hour (replace_tzinfo n tz)).
  { simpl. rewrite (hour_of_wall_us n Hvn). unfold astimezone.
    destruct (String.eqb (tz_id tz) (tz_id mytz)) eqn:Hid.
    - apply String.eqb_eq in Hid.
      rewrite (hour_of_wall_us a Hva), Hmoment. now rewrite (Hsame Hid).
    - rewrite hour_of_wall_us_inv. now rewrite Hmoment. }
  unfold outside_window, local_dt. rewrite Hn, Ha, Hhour. reflexivity.
Qed.

(* ====================================================================== *)
(** * Properties: calls to the browser *)
(* ====================================================================== *)

Section Calls.
Context {B : Type} (W : World B) (P : action -> Prop).

Lemma only_calls_ret {A : Type} (a : A) : only_calls P (@ret B A a).
Proof. intros st. exists []. simpl. now rewrite app_nil_r. Qed.

Lemma only_calls_raise {A : Type} (e : Exception) :
  only_calls P (@raise B A e).
Proof. intros st. exists []. simpl. now rewrite app_nil_r. Qed.

Lemma only_calls_print (line : string) : only_calls P (@print B line).
Proof. intros st. exists []. simpl. now rewrite app_nil_r. Qed.

Lemma only_calls_call (a : action) : P a -> only_calls P (call W a).
Proof.
  intros Ha st. exists [a]. unfold call.
  destruct (perform W a (browser st)) as [[e|] b]; simpl; auto.
Qed.

Lemma only_calls_bind {A C : Type} (m : M B A) (k : A -> M B C) :
  only_calls P m -> (forall a, only_calls P (k a)) ->
  only_calls P (bind m k).
Proof.
  intros Hm Hk st. unfold bind.
  destruct (Hm st) as (n1 & Hn1 & HP1).
  destruct (m st) as [[e|a] st1]; simpl in *.
  - now exists n1.
  - destruct (Hk a st1) as (n2 & Hn2 & HP2).
    exists (n1 ++ n2)%list. rewrite Hn2, Hn1, app_assoc.
    split; [reflexivity | now apply Forall_app].
Qed.

Lemma only_calls_try_except {A : Type} (body : M B A)
    (handler : Exception -> M B A) :
  only_calls P body -> (forall e, only_calls P (handler e)) ->
  only_calls P (try_except body handler).
Proof.
  intros Hm Hk st. unfold try_except.
  destruct (Hm st) as (n1 & Hn1 & HP1).
  destruct (body st) as [[e|a] st1]; simpl in *.
  - destruct (Hk e st1) as (n2 & Hn2 & HP2).
    exists (n1 ++ n2)%list. rewrite Hn2, Hn1, app_assoc.
    split; [reflexivity | now apply Forall_app].
  - now exists n1.
Qed.

Lemma only_calls_try_finally {A : Type} (body : M B A)
    (cleanup : M B unit) :
  only_calls P body -> only_calls P cleanup ->
  only_calls P (try_finally body cleanup).
Proof.
  intros Hm Hc st. unfold try_finally.
  destruct (Hm st) as (n1 & Hn1 & HP1).
  destruct (body st) as [r st1]; simpl in *.
  destruct (Hc st1) as (n2 & Hn2 & HP2).
  exists (n1 ++ n2)%list.
  destruct (cleanup st1) as [[e|u] st2]; simpl in *;
    rewrite Hn2, Hn1, app_assoc;
    (split; [reflexivity | now apply Forall_app]).
Qed.

Lemma only_calls_if {A : Type} (b : bool) (m1 m2 : M B A) :
  only_calls P m1 -> only_calls P m2 ->
  only_calls P (if b then m1 else m2).
Proof. now destruct b. Qed.

Lemma only_calls_likert_lookup (d : list (Z * string)) (response : Z) :
  only_calls P (@likert_lookup B d response).
Proof.
  induction d as [|[k v] d IH]; simpl.
  - apply only_calls_raise.
  - apply only_calls_if; [apply only_calls_ret | exact IH].
Qed.

Lemma only_calls_likert_loop (i : Z) (pairs : list (string * Z)) :
  (forall l, P (Click (LFirst l))) -> (forall l n, P (Click (LNth l n))) ->
  only_calls P (likert_loop W i pairs).
Proof.
  intros Hfirst Hnth. revert i.
  induction pairs as [|[question_text response] rest IH]; intros i;
    cbn [likert_loop].
  - apply only_calls_ret.
  - apply only_calls_bind; [apply only_calls_likert_lookup|]. intros text.
    apply only_calls_bind; [apply only_calls_print|]. intros _.
    apply only_calls_bind; [|intros _; apply IH].
    apply only_calls_try_except; [|intros _]; apply only_calls_call; auto.
Qed.

(** A computation that starts with a call logs that call first. *)
Lemma call_then_only_calls {A : Type} (a : action) (k : M B A) :
  only_calls P k ->
  forall st, exists new,
    calls (snd ((call W a ;; k) st)) = (calls st ++ a :: new)%list
    /\ Forall P new.
Proof.
  intros Hk st. unfold bind, call.
  destruct (perform W a (browser st)) as [[e|] b]; simpl.
  - now exists [].
  - match goal with |- context [k ?s] => destruct (Hk s) as (new & Hnew & HP) end.
    exists new. simpl in Hnew. rewrite Hnew, <- app_assoc. auto.
Qed.

End Calls.

(** Walks through a script, leaving the side condition on each call to
    [tac]. *)
Ltac only_calls_script tac :=
  repeat first
    [ apply only_calls_ret
    | apply only_calls_print
    | apply only_calls_likert_loop; [intros ?; tac | intros ? ?; tac]
    | apply only_calls_call; tac
    | apply only_calls_if
    | apply only_calls_try_except; [|intros ?]
    | apply only_calls_try_finally
    | apply only_calls_bind; [|intros ?] ].

(* ====================================================================== *)
(** * Properties: printing does not steer the browser *)
(* ====================================================================== *)

Section Blind.
Context {B : Type} (W : World B).

Lemma same_browser_refl (st : State B) : same_browser st st.
Proof. now split. Qed.

Lemma same_browser_trans (st1 st2 st3 : State B) :
  same_browser st1 st2 -> same_browser st2 st3 -> same_browser st1 st3.
Proof. intros [? ?] [? ?]. split; congruence. Qed.

Lemma same_browser_print (line : string) (st : State B) :
  same_browser (snd (print line st)) st.
Proof. now split. Qed.

Lemma blind_ret {A : Type} (a : A) : stdout_blind (@ret B A a).
Proof. intros st1 st2 Hst. now split. Qed.

Lemma blind_raise {A : Type} (e : Exception) : stdout_blind (@raise B A e).
Proof. intros st1 st2 Hst. now split. Qed.

Lemma blind_print (line : string) : stdout_blind (@print B line).
Proof. intros st1 st2 Hst. split; [reflexivity | exact Hst]. Qed.

Lemma blind_call (a : action) : stdout_blind (call W a).
Proof.
  intros st1 st2 [Hb Hc]. unfold call. rewrite Hb.
  destruct (perform W a (browser st2)) as [[e|] b]; simpl;
    (split; [reflexivity | split; simpl; congruence]).
Qed.

Lemma blind_bind {A C : Type} (m : M B A) (k : A -> M B C) :
  stdout_blind m -> (forall a, stdout_blind (k a)) ->
  stdout_blind (bind m k).
Proof.
  intros Hm Hk st1 st2 Hst. unfold bind.
  destruct (Hm st1 st2 Hst) as [Hr Hs].
  destruct (m st1) as [r1 s1], (m st2) as [r2 s2]; simpl in *. subst r2.
  destruct r1 as [e|a]; [now split | now apply Hk].
Qed.

Lemma blind_try_except {A : Type} (body : M B A)
    (handler : Exception -> M B A) :
  stdout_blind body -> (forall e, stdout_blind (handler e)) ->
  stdout_blind (try_except body handler).
Proof.
  intros Hm Hk st1 st2 Hst. unfold try_except.
  destruct (Hm st1 st2 Hst) as [Hr Hs].
  destruct (body st1) as [r1 s1], (body st2) as [r2 s2]; simpl in *.
  subst r2.
  destruct r1 as [e|a]; [now apply Hk | now split].
Qed.

Lemma blind_try_finally {A : Type} (body : M B A) (cleanup : M B unit) :
  stdout_blind body -> stdout_blind cleanup ->
  stdout_blind (try_finally body cleanup).
Proof.
  intros Hm Hc st1 st2 Hst. unfold try_finally.
  destruct (Hm st1 st2 Hst) as [Hr Hs].
  destruct (body st1) as [r1 s1], (body st2) as [r2 s2]; simpl in *.
  subst r2.
  destruct (Hc s1 s2 Hs) as [Hr' Hs'].
  destruct (cleanup s1) as [c1 t1], (cleanup s2) as [c2 t2]; simpl in *.
  subst c2. destruct c1; now split.
Qed.

Lemma blind_if {A : Type} (b : bool) (m1 m2 : M B A) :
  stdout_blind m1 -> stdout_blind m2 ->
  stdout_blind (if b then m1 else m2).
Proof. now destruct b. Qed.

Lemma blind_likert_lookup (d : list (Z * string)) (response : Z) :
  stdout_blind (@likert_lookup B d response).
Proof.
  induction d as [|[k v] d IH]; simpl.
  - apply blind_raise.
  - apply blind_if; [apply blind_ret | exact IH].
Qed.

Lemma blind_likert_loop (i : Z) (pairs : list (string * Z)) :
  stdout_blind (likert_loop W i pairs).
Proof.
  revert i.
  induction pairs as [|[question_text response] rest IH]; intros i;
    cbn [likert_loop].
  - apply blind_ret.
  - apply blind_bind; [apply blind_likert_lookup|]. intros text.
    apply blind_bind; [apply blind_print|]. intros _.
    apply blind_bind; [|intros _; apply IH].
    apply blind_try_except; [|intros _]; apply blind_call.
Qed.

Lemma blind_submit_survey (name lecture_time : string)
    (responses : list Z) (comment survey_url : string) (dry_run : bool) :
  stdout_blind
    (submit_survey W name lecture_time responses comment survey_url dry_run).
Proof.
  unfold submit_survey, with_playwright.
  repeat first
    [ apply blind_ret
    | apply blind_print
    | apply blind_likert_loop
    | apply blind_call
    | apply blind_if
    | apply blind_try_except; [|intros ?]
    | apply blind_try_finally
    | apply blind_bind; [|intros ?] ].
Qed.

End Blind.

(* ====================================================================== *)
(** * Properties: the survey driver *)
(* ====================================================================== *)

Lemma driver_invocations_app (l1 l2 : list action) :
  driver_invocations (l1 ++ l2)
  = (driver_invocations l1 + driver_invocations l2)%nat.
Proof.
  unfold driver_invocations. now rewrite filter_app, length_app.
Qed.

Lemma driver_invocations_none (l : list action) :
  Forall (fun a => a <> StartPlaywright) l -> driver_invocations l = 0%nat.
Proof.
  unfold driver_invocations.
  induction 1 as [|a l Ha _ IH]; simpl; [reflexivity|].
  destruct a; simpl; auto. contradiction.
Qed.

(** The driver enters [sync_playwright()] first, and once. *)
Lemma submit_survey_starts_once {B : Type} (W : World B)
    (name lecture_time : string) (responses : list Z)
    (comment survey_url : string) (dry_run : bool) (st : State B) :
  exists new,
    calls (snd (submit_survey W name lecture_time responses comment
                  survey_url dry_run st))
    = (calls st ++ StartPlaywright :: new)%list
    /\ Forall (fun a => a <> StartPlaywright) new.
Proof.
  unfold submit_survey, with_playwright.
  apply call_then_only_calls.
  only_calls_script discriminate.
Qed.

Lemma submit_survey_invoked {B : Type} (W : World B)
    (name lecture_time : string) (responses : list Z)
    (comment survey_url : string) (dry_run : bool) (st : State B) :
  driver_invocations
    (calls (snd (submit_survey W name lecture_time responses comment
                   survey_url dry_run st)))
  = S (driver_invocations (calls st)).
Proof.
  destruct (submit_survey_starts_once W name lecture_time responses comment
              survey_url dry_run st) as (new & -> & Hnew).
  rewrite driver_invocations_app.
  change (StartPlaywright :: new) with ([StartPlaywright] ++ new)%list.
  rewrite driver_invocations_app, (driver_invocations_none new Hnew).
  simpl. lia.
Qed.


(* ====================================================================== *)
(** * Properties: the entry point *)
(* ====================================================================== *)

(** Step 3 of [main], started from a state that differs from [st] in the
    printed lines only, drives the survey from [st]. *)
Lemma step3_drives {B : Type} (W : World B) (CONFIG : Config) (args : Args)
    (st st1 : State B) :
  same_browser st1 st ->
  drives W CONFIG args st
    ((success <-
        submit_survey W (cfg_name CONFIG) (time args)
          (default_responses CONFIG) (comment CONFIG) (survey_url CONFIG)
          (dry_run args) ;;
      ret (if success then 0 else 1)) st1).
Proof.
  intros Hst. unfold drives, bind.
  pose proof (blind_submit_survey W (cfg_name CONFIG) (time args)
                (default_responses CONFIG) (comment CONFIG)
                (survey_url CONFIG) (dry_run args) st1 st Hst) as [Hr Hs].
  pose proof (submit_survey_invoked W (cfg_name CONFIG) (time args)
                (default_responses CONFIG) (comment CONFIG)
                (survey_url CONFIG) (dry_run args) st) as Hcount.
  destruct (submit_survey W (cfg_name CONFIG) (time args)
              (default_responses CONFIG) (comment CONFIG)
              (survey_url CONFIG) (dry_run args) st1) as [r1 s1].
  simpl in Hr, Hs. rewrite <- Hr, <- Hcount.
  destruct Hs as [Hb Hc].
  destruct r1 as [e|[|]]; simpl; rewrite ?Hc; repeat split; auto.
Qed.

Section EntryPoint.
Context `{Lowercase} {B : Type} (W : World B) (CONFIG : Config)
        (args : Args) (st : State B).

(** Line 325: no calendar, no [--force]. *)
Lemma main_fetch_failed (e : Exception) :
  fetch W (calendar_url CONFIG) = inl e -> force args = false ->
  exit_status (fst (main W CONFIG args st)) = 1
  /\ browser_untouched st (snd (main W CONFIG args st)).
Proof.
  intros Hfetch Hforce.
  unfold main, fetch_calendar. rewrite Hfetch, Hforce.
  split; [reflexivity | now split].
Qed.

(** Lines 326-327: no calendar, [--force]. *)
Lemma main_fetch_failed_forced (e : Exception) :
  fetch W (calendar_url CONFIG) = inl e -> force args = true ->
  drives W CONFIG args st (main W CONFIG args st).
Proof.
  intros Hfetch Hforce.
  unfold main, fetch_calendar. rewrite Hfetch, Hforce.
  cbv [bind print try_except raise ret negb andb]; cbn [browser calls stdout].
  refine (step3_drives W CONFIG args st _ _). now split.
Qed.

(** Lines 332-334: nothing to attend, no [--force]. *)
Lemma main_skips (cal : Calendar) :
  fetch W (calendar_url CONFIG) = inr cal ->
  classification W CONFIG args cal = false -> force args = false ->
  exit_status (fst (main W CONFIG args st)) = 0
  /\ browser_untouched st (snd (main W CONFIG args st)).
Proof.
  intros Hfetch Hclass Hforce.
  unfold main, fetch_calendar. rewrite Hfetch, Hforce.
  unfold classification in Hclass.
  cbv [bind print try_except raise ret]; cbn [browser calls stdout].
  destruct (is_conference_day _ _) as [is_conf reason].
  simpl in Hclass. subst is_conf.
  split; [reflexivity | now split].
Qed.

(** Lines 336-347: a conference, or [--force]. *)
Lemma main_submits (cal : Calendar) :
  fetch W (calendar_url CONFIG) = inr cal ->
  classification W CONFIG args cal = true \/ force args = true ->
  drives W CONFIG args st (main W CONFIG args st).
Proof.
  intros Hfetch Hcase.
  unfold main, fetch_calendar. rewrite Hfetch.
  unfold classification in Hcase.
  cbv [bind print try_except raise ret]; cbn [browser calls stdout].
  destruct (is_conference_day _ _) as [is_conf reason].
  simpl in Hcase.
  assert (Hgo : negb is_conf && negb (force args) = false).
  { destruct Hcase as [-> | ->]; [reflexivity | apply andb_false_r]. }
  rewrite Hgo.
  refine (step3_drives W CONFIG args st _ _). now split.
Qed.

(** With [--force] the survey is driven whatever the calendar says. *)
Lemma main_forced :
  force args = true -> drives W CONFIG args st (main W CONFIG args st).
Proof.
  intros Hforce.
  destruct (fetch W (calendar_url CONFIG)) as [e|cal] eqn:Hfetch.
  - now apply (main_fetch_failed_forced e).
  - apply (main_submits cal); auto.
Qed.

End EntryPoint.

(** C7: the exit status of a run and the calls it makes to the survey
    driver.  When the calendar cannot be fetched or parsed and [--force] is
    absent, the status is 1 and the browser is left alone; with [--force]
    the run drives the survey as it does after a positive classification.
    When the classification is negative and [--force] is absent, the status
    is 0 and the browser is left alone.  In every other case the survey
    driver is invoked once and the status is 0 exactly when it reports
    success, 1 otherwise. *)
Theorem C7_entry_point `{Lowercase} {B : Type} (W : World B)
    (CONFIG : Config) (args : Args) (st : State B) :
  (forall e,
      fetch W (calendar_url CONFIG) = inl e -> force args = false ->
      exit_status (fst (main W CONFIG args st)) = 1
      /\ browser_untouched st (snd (main W CONFIG args st)))
  /\ (forall e,
        fetch W (calendar_url CONFIG) = inl e -> force args = true ->
        drives W CONFIG args st (main W CONFIG args st))
  /\ (forall cal,
        fetch W (calendar_url CONFIG) = inr cal ->
        classification W CONFIG args cal = false -> force args = false ->
        exit_status (fst (main W CONFIG args st)) = 0
        /\ browser_untouched st (snd (main W CONFIG args st)))
  /\ (forall cal,
        fetch W (calendar_url CONFIG) = inr cal ->
        classification W CONFIG args cal = true \/ force args = true ->
        drives W CONFIG args st (main W CONFIG args st)).
Proof.
  split; [|split; [|split]].
  - apply main_fetch_failed.
  - apply main_fetch_failed_forced.
  - apply main_skips.
  - apply main_submits.
Qed.

Lemma C7_entry_point_witness :
  (exit_status
     (fst (@main ascii_lowercase unit timeout_world DEFAULT_CONFIG
             (mkargs "8AM" false false) st0)) = 1
   /\ browser_untouched st0
        (snd (@main ascii_lowercase unit timeout_world DEFAULT_CONFIG
                (mkargs "8AM" false false) st0)))
  /\ drives timeout_world DEFAULT_CONFIG (mkargs "8AM" false true) st0
       (@main ascii_lowercase unit timeout_world DEFAULT_CONFIG
          (mkargs "8AM" false true) st0)
  /\ (exit_status
        (fst (@main ascii_lowercase unit admin_world DEFAULT_CONFIG
                (mkargs "8AM" false false) st0)) = 0
      /\ browser_untouched st0
           (snd (@main ascii_lowercase unit admin_world DEFAULT_CONFIG
                   (mkargs "8AM" false false) st0)))
  /\ drives conference_world DEFAULT_CONFIG (mkargs "8AM" false false) st0
       (@main ascii_lowercase unit conference_world DEFAULT_CONFIG
          (mkargs "8AM" false false) st0).
Proof.
  split; [|split; [|split]].
  - apply (proj1 (@C7_entry_point ascii_lowercase unit timeout_world
                    DEFAULT_CONFIG (mkargs "8AM" false false) st0)
             "timed out"); reflexivity.
  - apply (proj1 (proj2 (@C7_entry_point ascii_lowercase unit timeout_world
                           DEFAULT_CONFIG (mkargs "8AM" false true) st0))
             "timed out"); reflexivity.
  - apply (proj1 (proj2 (proj2 (@C7_entry_point ascii_lowercase unit
                                   admin_world DEFAULT_CONFIG
                                   (mkargs "8AM" false false) st0)))
             (vcalendar [vevent "Admin Day" (DDateTime (naive_at 8))]));
      reflexivity.
  - apply (proj2 (proj2 (proj2 (@C7_entry_point ascii_lowercase unit
                                   conference_world DEFAULT_CONFIG
                                   (mkargs "8AM" false false) st0)))
             (vcalendar [vevent "Grand Rounds" (DDateTime (naive_at 8))])).
    + reflexivity.
    + left. reflexivity.
Defined.

(** The four runs above, evaluated: exit status and number of calls made
    to the browser. *)
Example entry_point_runs :
  let run W force :=
    let out := @main ascii_lowercase unit W DEFAULT_CONFIG
                 (mkargs "8AM" false force) st0 in
    (fst out, List.length (calls (snd out))) in
  run timeout_world false = (inr 1, 0%nat)
  /\ run timeout_world true = (inr 0, 20%nat)
  /\ run admin_world false = (inr 0, 0%nat)
  /\ run admin_world true = (inr 0, 20%nat)
  /\ run conference_world false = (inr 0, 20%nat).
Proof. vm_compute. repeat split. Qed.

(* ====================================================================== *)
(** * Properties: the two clicks that leave a page *)
(* ====================================================================== *)

(** C8 (as written): the alternatives tried on page 2 would be those of
    page 1.  They are not. *)
Lemma C8_counterexample : candidates submit_button <> candidates next_button.
Proof. discriminate. Qed.

(** In a dry run the driver never clicks the submit control of page 2. *)
Lemma dry_run_never_submits {B : Type} (W : World B)
    (name lecture_time : string) (responses : list Z)
    (comment survey_url : string) :
  only_calls (fun a => a <> Click submit_button)
    (submit_survey W name lecture_time responses comment survey_url true).
Proof.
  unfold submit_survey, with_playwright. cbv beta iota.
  only_calls_script discriminate.
Qed.

(** C8 (amended): the click that submits page 2 tries the
    accessibility-labelled "Next" control, then the control showing the
    arrow, then the control of class [NextButton], in the order of page 1,
    and stops there: the chain of page 1 is this chain followed by the last
    button of the page.  When nothing raises, a run that is not a dry run
    clicks the chain of page 1 and later the chain of page 2. *)
Theorem C8_submit_chain :
  candidates submit_button
  = [Locator "button[aria-label='Next']"; Locator "button:has-text('→')";
     Locator ".NextButton"]
  /\ candidates next_button
     = (candidates submit_button ++ [Locator "button >> nth=-1"])%list
  /\ exists before between after,
       calls (snd (submit_survey conference_world "Your Name" "8AM" [5; 5; 5]
                     "" (survey_url DEFAULT_CONFIG) false st0))
       = (before ++ Click next_button :: between
                 ++ Click submit_button :: after)%list
       /\ Forall (fun a => forall l1 l2, a <> Click (LOr l1 l2))
                 (before ++ between ++ after).
Proof.
  split; [reflexivity | split; [reflexivity|]].
  vm_compute.
  eexists (_ :: _ :: _ :: _ :: _ :: _ :: _ :: []).
  eexists (_ :: _ :: _ :: _ :: _ :: _ :: _ :: _ :: []).
  eexists.
  split; [reflexivity|].
  repeat constructor; intros l1 l2; discriminate.
Qed.

(* ====================================================================== *)
(** * Properties: which clock dates the survey *)
(* ====================================================================== *)

(** What [main] asks of the browser is what [submit_survey] asks of it. *)
Lemma only_calls_main `{Lowercase} {B : Type} (W : World B)
    (P : action -> Prop) (CONFIG : Config) (args : Args) :
  only_calls P
    (submit_survey W (cfg_name CONFIG) (time args) (default_responses CONFIG)
       (comment CONFIG) (survey_url CONFIG) (dry_run args)) ->
  only_calls P (main W CONFIG args).
Proof.
  intros Hdriver. unfold main.
  do 4 (apply only_calls_bind; [apply only_calls_print | intros _]).
  apply only_calls_bind.
  - apply only_calls_try_except.
    + apply only_calls_bind.
      * unfold fetch_calendar.
        destruct (fetch W (calendar_url CONFIG));
          [apply only_calls_raise | apply only_calls_ret].
      * intros cal. destruct (is_conference_day _ _) as [is_conf reason].
        only_calls_script idtac.
    + intros e. only_calls_script idtac.
  - intros [code | is_conf]; [apply only_calls_ret|].
    apply only_calls_bind; [apply only_calls_print | intros _].
    apply only_calls_if.
    + only_calls_script idtac.
    + apply only_calls_bind; [apply only_calls_print | intros _].
      apply only_calls_bind; [exact Hdriver | intros success].
      apply only_calls_ret.
Qed.




(* ====================================================================== *)
(** * Further properties: the event filter *)
(* ====================================================================== *)

Lemma subseq_refl {A : Type} (l : list A) : subseq l l.
Proof. induction l; constructor; assumption. Qed.

Lemma subseq_app {A : Type} (a a' b b' : list A) :
  subseq a a' -> subseq b b' -> subseq (a ++ b)%list (a' ++ b')%list.
Proof.
  intros Ha Hb. induction Ha; simpl; try constructor; assumption.
Qed.

Lemma subseq_nil_l {A : Type} (l : list A) : subseq [] l.
Proof. induction l; constructor; assumption. Qed.

Lemma flat_map_eq_in {A C : Type} (f g : A -> list C) (l : list A) :
  (forall a, In a l -> f a = g a) -> flat_map f l = flat_map g l.
Proof.
  induction l as [|a l IH]; intros Hfg; simpl; [reflexivity|].
  rewrite (Hfg a), IH; auto with datatypes.
Qed.

(** What a component contributes under a window is nothing, or what it
    contributes without a window. *)
Lemma selected_with_window (today : date) (tz : ZoneInfo)
    (lecture_time : option string) (c : Component) :
  selected today tz lecture_time c = []
  \/ selected today tz lecture_time c = selected today tz None c.
Proof.
  unfold selected.
  destruct (String.eqb (name c) "VEVENT"); auto.
  destruct (DTSTART c) as [v|]; auto.
  destruct (date_eqb (event_date_of v) today); auto.
  destruct (outside_window tz lecture_time v); simpl; auto.
Qed.

Lemma outside_window_falsy (tz : ZoneInfo) (lecture_time : option string)
    (v : dt_value) :
  truthy lecture_time = false -> outside_window tz lecture_time v = false.
Proof.
  intros Hfalsy. unfold outside_window.
  destruct lecture_time as [label|], v as [d|t]; try reflexivity.
  now rewrite Hfalsy.
Qed.

(** The hour of a start brought to the local zone is an hour of the day. *)
Lemma local_hour_range (tz : ZoneInfo) (t : datetime) :
  valid_time t -> 0 <= hour (local_dt tz t) < 24.
Proof.
  intros Hv. unfold local_dt.
  destruct (dt_tzinfo t) as [mytz|]; [|apply Hv].
  unfold astimezone.
  destruct (String.eqb (tz_id tz) (tz_id mytz)); [apply Hv|].
  rewrite hour_of_wall_us_inv. apply Z.mod_pos_bound. lia.
Qed.

Lemma dict_get_missing_window (label : string) :
  label <> "8AM" -> label <> "12PM" ->
  dict_get time_windows label (0, 24) = (0, 24).
Proof.
  intros H8 H12. unfold time_windows, dict_get.
  destruct (String.eqb "8AM" label) eqn:E8;
    [apply String.eqb_eq in E8; congruence|].
  destruct (String.eqb "12PM" label) eqn:E12;
    [apply String.eqb_eq in E12; congruence|].
  reflexivity.
Qed.

Lemma in_todays_events_none (clock : Clock) (cal : Calendar) (tz : ZoneInfo)
    (lecture_time : option string) (e : event) :
  truthy lecture_time = false ->
  In e (get_todays_events clock cal tz lecture_time) <-> todays clock tz cal e.
Proof.
  intros Hfalsy. rewrite in_get_todays_events. unfold todays.
  split.
  - intros (c & Hc & Hn & Hs & Hsum & Hd & _). exists c. auto.
  - intros (c & Hc & Hn & Hs & Hsum & Hd). exists c.
    repeat split; auto. now apply outside_window_falsy.
Qed.

(** X1: for a date-time event whose date, as the event writes it, is today,
    the filter with the label "8AM" returns the event exactly when its local
    hour h satisfies 7 <= h < 10, and with "12PM" exactly when
    11 <= h < 14. *)
Theorem X1_window_is_half_open (clock : Clock) (cal : Calendar)
    (tz : ZoneInfo) (c : Component) (t : datetime) :
  In c (walk cal) -> name c = "VEVENT" -> DTSTART c = Some (DDateTime t) ->
  date_of t = date_of (datetime_now clock (Some tz)) ->
  (In (mkevent (summary_of c) (DDateTime t))
      (get_todays_events clock cal tz (Some "8AM"))
   <-> 7 <= hour (local_dt tz t) < 10)
  /\ (In (mkevent (summary_of c) (DDateTime t))
         (get_todays_events clock cal tz (Some "12PM"))
      <-> 11 <= hour (local_dt tz t) < 14).
Proof.
  intros Hc Hname Hstart Hdate.
  split; apply (window_filter_on_written_date clock cal tz c t); auto.
Qed.

Lemma X1_window_is_half_open_witness :
  (In (mkevent "at nine" (DDateTime (naive_at 9)))
      (get_todays_events morning_clock
         (vcalendar [vevent "at nine" (DDateTime (naive_at 9))])
         Los_Angeles (Some "8AM"))
   <-> 7 <= hour (local_dt Los_Angeles (naive_at 9)) < 10)
  /\ (In (mkevent "at nine" (DDateTime (naive_at 9)))
         (get_todays_events morning_clock
            (vcalendar [vevent "at nine" (DDateTime (naive_at 9))])
            Los_Angeles (Some "12PM"))
      <-> 11 <= hour (local_dt Los_Angeles (naive_at 9)) < 14).
Proof.
  apply (X1_window_is_half_open morning_clock
           (vcalendar [vevent "at nine" (DDateTime (naive_at 9))])
           Los_Angeles (vevent "at nine" (DDateTime (naive_at 9)))
           (naive_at 9)).
  - simpl. auto.
  - reflexivity.
  - reflexivity.
  - reflexivity.
Defined.

(** X2: a naive date-time and an aware one that denote the same moment (the
    reading of the naive one on the wall clock is the local reading of the
    moment of the aware one) get the same answer from the window test, for
    every label. *)
Theorem X2_same_moment_same_window (tz : ZoneInfo)
    (lecture_time : option string) (n a : datetime) (mytz : tzinfo) :
  valid_time n -> valid_time a ->
  dt_tzinfo n = None -> dt_tzinfo a = Some mytz ->
  wall_us n = fromutc tz (wall_us a - utcoffset mytz (wall_us a)) ->
  (tz_id tz = tz_id mytz ->
   fromutc tz (wall_us a - utcoffset mytz (wall_us a)) = wall_us a) ->
  outside_window tz lecture_time (DDateTime n)
  = outside_window tz lecture_time (DDateTime a).
Proof. apply same_moment_same_window. Qed.

Lemma X2_same_moment_same_window_witness :
  outside_window Los_Angeles (Some "12PM") (DDateTime (naive_at 8))
  = outside_window Los_Angeles (Some "12PM") (DDateTime tokyo_event).
Proof.
  apply (X2_same_moment_same_window Los_Angeles (Some "12PM") (naive_at 8)
           tokyo_event Tokyo).
  - unfold valid_time, US_PER_SECOND. simpl. lia.
  - unfold valid_time, US_PER_SECOND. simpl. lia.
  - reflexivity.
  - reflexivity.
  - vm_compute. reflexivity.
  - intros Hid. discriminate Hid.
Defined.

(** X3: the two windows do not overlap: a date-time event returned for
    "8AM" is not returned for "12PM". *)
Theorem X3_windows_disjoint (clock : Clock) (cal : Calendar) (tz : ZoneInfo)
    (e : event) (t : datetime) :
  start e = DDateTime t ->
  In e (get_todays_events clock cal tz (Some "8AM")) ->
  ~ In e (get_todays_events clock cal tz (Some "12PM")).
Proof.
  intros Hstart H8 H12.
  apply in_get_todays_events in H8 as (c8 & _ & _ & _ & _ & _ & Hw8).
  apply in_get_todays_events in H12 as (c12 & _ & _ & _ & _ & _ & Hw12).
  rewrite Hstart in Hw8, Hw12.
  rewrite outside_window_8AM in Hw8. rewrite outside_window_12PM in Hw12.
  rewrite negb_false_iff, andb_true_iff, Z.leb_le, Z.ltb_lt in Hw8, Hw12.
  lia.
Qed.

Lemma X3_windows_disjoint_witness :
  In (mkevent "at nine" (DDateTime (naive_at 9)))
     (get_todays_events morning_clock
        (vcalendar [vevent "at nine" (DDateTime (naive_at 9))])
        Los_Angeles (Some "8AM"))
  /\ ~ In (mkevent "at nine" (DDateTime (naive_at 9)))
         (get_todays_events morning_clock
            (vcalendar [vevent "at nine" (DDateTime (naive_at 9))])
            Los_Angeles (Some "12PM")).
Proof.
  split; [vm_compute; auto|].
  apply (X3_windows_disjoint morning_clock
           (vcalendar [vevent "at nine" (DDateTime (naive_at 9))])
           Los_Angeles (mkevent "at nine" (DDateTime (naive_at 9)))
           (naive_at 9)).
  - reflexivity.
  - vm_compute. auto.
Defined.

(** X4: a window only removes events: what the filter returns with a label
    is what it returns without one, some events left out and the order
    kept. *)
Theorem X4_window_only_removes (clock : Clock) (cal : Calendar)
    (tz : ZoneInfo) (lecture_time : option string) :
  subseq (get_todays_events clock cal tz lecture_time)
         (get_todays_events clock cal tz None).
Proof.
  rewrite !get_todays_events_selected.
  induction (walk cal) as [|c rest IH]; cbn [flat_map]; [constructor|].
  apply subseq_app; [|exact IH].
  destruct (selected_with_window
              (date_of (datetime_now clock (Some tz))) tz lecture_time c)
    as [-> | ->]; [apply subseq_nil_l | apply subseq_refl].
Qed.

(** X5: with no label, or with the empty label, no hour is tested: the
    events returned are those of the VEVENT components whose written date is
    today, date-times at any hour included. *)
Theorem X5_no_label_no_window (clock : Clock) (cal : Calendar)
    (tz : ZoneInfo) (e : event) :
  (In e (get_todays_events clock cal tz None) <-> todays clock tz cal e)
  /\ (In e (get_todays_events clock cal tz (Some ""))
      <-> todays clock tz cal e).
Proof. split; now apply in_todays_events_none. Qed.

(** X6: a label that is not a key of [time_windows] stands for the hours 0
    to 24: on a calendar whose date-times are well formed the filter then
    returns what it returns without a label. *)
Theorem X6_unknown_label_is_all_day (clock : Clock) (cal : Calendar)
    (tz : ZoneInfo) (label : string) :
  label <> "8AM" -> label <> "12PM" -> valid_calendar cal ->
  get_todays_events clock cal tz (Some label)
  = get_todays_events clock cal tz None.
Proof.
  intros H8 H12 Hvalid.
  rewrite !get_todays_events_selected.
  apply flat_map_eq_in. intros c Hc. unfold selected.
  destruct (String.eqb (name c) "VEVENT"); [|reflexivity].
  destruct (DTSTART c) as [v|] eqn:Hstart; [|reflexivity].
  replace (outside_window tz (Some label) v) with false; [reflexivity|].
  destruct v as [d|t]; [reflexivity|].
  unfold outside_window.
  destruct (truthy (Some label) && has_hour_attr (DDateTime t));
    [|reflexivity].
  rewrite (dict_get_missing_window label H8 H12).
  pose proof (local_hour_range tz t (Hvalid c t Hc Hstart)) as Hh.
  symmetry. rewrite negb_false_iff, andb_true_iff, Z.leb_le, Z.ltb_lt. lia.
Qed.

Lemma X6_unknown_label_is_all_day_witness :
  get_todays_events morning_clock
    (vcalendar [vevent "at six" (DDateTime (naive_at 6))])
    Los_Angeles (Some "9AM")
  = get_todays_events morning_clock
      (vcalendar [vevent "at six" (DDateTime (naive_at 6))])
      Los_Angeles None.
Proof.
  apply (X6_unknown_label_is_all_day morning_clock
           (vcalendar [vevent "at six" (DDateTime (naive_at 6))])
           Los_Angeles "9AM").
  - discriminate.
  - discriminate.
  - intros c t [<- | [<- | []]] Hstart; [discriminate Hstart|].
    injection Hstart as <-.
    unfold valid_time, US_PER_SECOND. simpl. lia.
Defined.

(* ====================================================================== *)
(** * Further properties: the classifier *)
(* ====================================================================== *)

Section Decision.
Context `{Lowercase}.

Lemma keyword_loop_vetoes (e : event) (kws : list string) :
  keyword_loop (lower (summary e)) kws = None <-> vetoes kws e = false.
Proof.
  unfold vetoes. induction kws as [|k kws IH]; simpl; [tauto|].
  destruct (str_in (lower k) (lower (summary e))); simpl; [|exact IH].
  split; discriminate.
Qed.

Lemma skip_loop_vetoed (es : list event) (kws : list string) :
  skip_loop es kws = None <-> vetoed es kws = false.
Proof.
  unfold vetoed. induction es as [|e es IH]; simpl; [tauto|].
  destruct (keyword_loop (lower (summary e)) kws) as [k|] eqn:Hk.
  - assert (Hv : vetoes kws e = true).
    { destruct (vetoes kws e) eqn:Hv; [reflexivity|].
      apply keyword_loop_vetoes in Hv. congruence. }
    rewrite Hv. simpl. split; discriminate.
  - apply keyword_loop_vetoes in Hk. rewrite Hk. simpl. exact IH.
Qed.

Lemma skip_loop_decides_false (es : list event) (kws : list string)
    (r : bool * string) :
  skip_loop es kws = Some r -> fst r = false.
Proof.
  induction es as [|e es IH]; simpl; [discriminate|].
  destruct (keyword_loop (lower (summary e)) kws); [|exact IH].
  now intros [= <-].
Qed.

(** The decision, as a boolean of the events and the keywords. *)
Lemma decision_eq (es : list event) (kws : list string) :
  fst (is_conference_day es kws)
  = negb (Nat.eqb (List.length es) 0) && negb (vetoed es kws).
Proof.
  destruct es as [|e es]; [reflexivity|].
  unfold is_conference_day.
  destruct (skip_loop (e :: es) kws) as [r|] eqn:Hs.
  - rewrite (skip_loop_decides_false _ _ _ Hs).
    destruct (vetoed (e :: es) kws) eqn:Hv; [reflexivity|].
    apply skip_loop_vetoed in Hv. congruence.
  - apply skip_loop_vetoed in Hs. now rewrite Hs.
Qed.

Lemma existsb_permutation {A : Type} (f : A -> bool) (l l' : list A) :
  Permutation l l' -> existsb f l = existsb f l'.
Proof.
  induction 1 as [|x l l' _ IH|x y l|l l' l'' _ IH1 _ IH2]; simpl.
  - reflexivity.
  - now rewrite IH.
  - destruct (f x), (f y); reflexivity.
  - now rewrite IH1.
Qed.

Lemma existsb_eq_in {A : Type} (f g : A -> bool) (l : list A) :
  (forall a, In a l -> f a = g a) -> existsb f l = existsb g l.
Proof.
  induction l as [|a l IH]; intros Hfg; simpl; [reflexivity|].
  rewrite (Hfg a), IH; auto with datatypes.
Qed.

Lemma vetoes_same_ci (kws kws' : list string) (e e' : event) :
  Forall2 same_ci kws kws' -> same_ci (summary e) (summary e') ->
  vetoes kws e = vetoes kws' e'.
Proof.
  unfold vetoes, same_ci. intros Hk He.
  induction Hk as [|k k' kws kws' Hkk _ IH]; simpl; [reflexivity|].
  now rewrite IH, Hkk, He.
Qed.

End Decision.

(** X7: the classifier answers [True] exactly when there is at least one
    event and no summary contains a skip keyword, case left aside. *)
Theorem X7_decision_iff `{Lowercase} (events : list event)
    (kws : list string) :
  fst (is_conference_day events kws) = true
  <-> events <> [] /\ no_match events kws.
Proof.
  rewrite decision_eq, andb_true_iff, !negb_true_iff.
  rewrite <- skip_loop_vetoed, skip_loop_none.
  destruct events as [|e es]; simpl; split; intros [He Hn];
    solve [ discriminate He | now contradiction He
          | split; [discriminate | exact Hn]
          | split; [reflexivity | exact Hn] ].
Qed.

(** X8: the decision depends neither on the order of the events nor on the
    order of the keywords (the reason does: it names the first match). *)
Theorem X8_decision_ignores_order `{Lowercase} (events events' : list event)
    (kws kws' : list string) :
  Permutation events events' -> Permutation kws kws' ->
  fst (is_conference_day events kws) = fst (is_conference_day events' kws').
Proof.
  intros He Hk. rewrite !decision_eq.
  rewrite (Permutation_length He). f_equal. f_equal.
  unfold vetoed. rewrite (existsb_permutation (vetoes kws) _ _ He).
  apply existsb_eq_in. intros e _. unfold vetoes.
  now apply existsb_permutation.
Qed.

Lemma X8_decision_ignores_order_witness :
  fst (@is_conference_day ascii_lowercase
         [mkevent "Grand Rounds" Jan_1; mkevent "Admin Day" Jan_1]
         ["wellness"; "admin"])
  = fst (@is_conference_day ascii_lowercase
           [mkevent "Admin Day" Jan_1; mkevent "Grand Rounds" Jan_1]
           ["admin"; "wellness"]).
Proof.
  apply (@X8_decision_ignores_order ascii_lowercase); apply perm_swap.
Defined.

(** X9: the decision does not see the case of letters: replacing keywords
    and summaries by texts with the same lowercase form leaves it as it
    was. *)
Theorem X9_decision_ignores_case `{Lowercase} (events events' : list event)
    (kws kws' : list string) :
  Forall2 (fun e e' => same_ci (summary e) (summary e')) events events' ->
  Forall2 same_ci kws kws' ->
  fst (is_conference_day events kws) = fst (is_conference_day events' kws').
Proof.
  intros He Hk. rewrite !decision_eq.
  rewrite (Forall2_length He). f_equal. f_equal.
  unfold vetoed.
  induction He as [|e e' es es' Hee _ IH]; simpl; [reflexivity|].
  now rewrite (vetoes_same_ci kws kws' e e' Hk Hee), IH.
Qed.

Lemma X9_decision_ignores_case_witness :
  fst (@is_conference_day ascii_lowercase
         [mkevent "ADMIN day" Jan_1] ["Admin"])
  = fst (@is_conference_day ascii_lowercase
           [mkevent "Admin Day" Jan_1] ["aDMIN"]).
Proof.
  apply (@X9_decision_ignores_case ascii_lowercase);
    repeat constructor.
Defined.

(* ====================================================================== *)
(** * Further properties: loading the configuration *)
(* ====================================================================== *)

Lemma dict_find_set (d : pydict) (k k' : string) (v : json) :
  dict_find (dict_set d k v) k'
  = if String.eqb k k' then Some v else dict_find d k'.
Proof.
  induction d as [|[k0 v0] d IH]; simpl.
  - reflexivity.
  - destruct (String.eqb k0 k) eqn:E0; simpl.
    + apply String.eqb_eq in E0. subst k0.
      now destruct (String.eqb k k').
    + rewrite IH. destruct (String.eqb k0 k') eqn:E1; [|reflexivity].
      apply String.eqb_eq in E1. subst k0.
      assert (Hsym : String.eqb k k' = String.eqb k' k)
        by apply String.eqb_sym.
      now rewrite Hsym, E0.
Qed.

Lemma dict_find_app (a b : pydict) (k : string) :
  dict_find (a ++ b)%list k
  = match dict_find a k with Some v => Some v | None => dict_find b k end.
Proof.
  induction a as [|[k0 v0] a IH]; simpl; [reflexivity|].
  now destruct (String.eqb k0 k).
Qed.

Lemma dict_find_merge (a b : pydict) (k : string) :
  dict_find (dict_merge a b) k
  = match last_binding b k with
    | Some v => Some v
    | None => dict_find a k
    end.
Proof.
  unfold dict_merge, last_binding. revert a.
  induction b as [|[k0 v0] b IH]; intros a; simpl; [reflexivity|].
  rewrite IH, dict_find_app, dict_find_set. simpl.
  destruct (dict_find (rev b) k); [reflexivity|].
  now destruct (String.eqb k0 k).
Qed.

Lemma keys_set (d : pydict) (k : string) (v : json) :
  keys (dict_set d k v) = if existsb (String.eqb k) (keys d) then keys d
                          else (keys d ++ [k])%list.
Proof.
  unfold keys. induction d as [|[k0 v0] d IH]; simpl; [reflexivity|].
  assert (Hsym : String.eqb k k0 = String.eqb k0 k) by apply String.eqb_sym.
  rewrite Hsym.
  destruct (String.eqb k0 k); simpl; [reflexivity|].
  rewrite IH. now destruct (existsb (String.eqb k) (map fst d)).
Qed.

Lemma existsb_eqb_in (k : string) (l : list string) :
  existsb (String.eqb k) l = true <-> In k l.
Proof.
  rewrite existsb_exists. split.
  - intros (x & Hx & E). apply String.eqb_eq in E. now subst.
  - intros Hin. exists k. split; [assumption | apply String.eqb_refl].
Qed.

Lemma keys_merge (a b : pydict) :
  NoDup (keys a) ->
  exists added,
    keys (dict_merge a b) = (keys a ++ added)%list
    /\ NoDup (keys (dict_merge a b)).
Proof.
  unfold dict_merge. revert a.
  induction b as [|[k0 v0] b IH]; intros a Ha; simpl.
  - exists []. now rewrite app_nil_r.
  - assert (Hset : exists one, keys (dict_set a k0 v0) = (keys a ++ one)%list
                               /\ NoDup (keys (dict_set a k0 v0))).
    { rewrite keys_set.
      destruct (existsb (String.eqb k0) (keys a)) eqn:E.
      - exists []. now rewrite app_nil_r.
      - exists [k0]. split; [reflexivity|].
        apply NoDup_app; auto.
        + repeat constructor. intros [].
        + intros x Hx [<- | []].
          apply existsb_eqb_in in Hx. congruence. }
    destruct Hset as (one & Hone & Hnd).
    destruct (IH (dict_set a k0 v0) Hnd) as (more & Hmore & Hnd').
    exists (one ++ more)%list. split; [|exact Hnd'].
    now rewrite Hmore, Hone, app_assoc.
Qed.

(** X10: the merge of [load_config] is key by key: in the dict it returns,
    a key the file binds has the whole value the file gives it (the last
    one, should the key come twice), and a key the file does not bind has
    its default value, if any. *)
Theorem X10_override_wins_per_key (override : pydict) (k : string) :
  exists d,
    load_config (Parsed (JObject override)) = inr d
    /\ dict_find d k
       = match last_binding override k with
         | Some v => Some v
         | None => dict_find DEFAULT_CONFIG_items k
         end.
Proof.
  exists (dict_merge DEFAULT_CONFIG_items override).
  split; [reflexivity | apply dict_find_merge].
Qed.

(** X11: whenever [load_config] returns, the dict has each key once, and
    starts with the seven default keys in their order; what the file adds
    comes after.  So no later [CONFIG[...]] of the script can miss its
    key. *)
Theorem X11_default_keys_stay (file : ConfigFile) (d : pydict) :
  load_config file = inr d ->
  NoDup (keys d)
  /\ exists added,
       keys d
       = (["name"; "calendar_url"; "survey_url"; "timezone"; "skip_keywords";
           "default_responses"; "comment"] ++ added)%list.
Proof.
  assert (Hdefault : NoDup (keys DEFAULT_CONFIG_items)).
  { repeat constructor; simpl; intuition discriminate. }
  destruct file as [| e | v]; simpl.
  - intros [= <-]. split; [exact Hdefault | now exists []].
  - discriminate.
  - destruct v; try discriminate. intros [= <-].
    destruct (keys_merge DEFAULT_CONFIG_items items Hdefault)
      as (added & Hkeys & Hnd).
    split; [exact Hnd | now exists added].
Qed.

Lemma X11_default_keys_stay_witness :
  NoDup (keys (dict_merge DEFAULT_CONFIG_items
                 [("timezone", JStr "Asia/Tokyo"); ("verbose", JBool true)]))
  /\ exists added,
       keys (dict_merge DEFAULT_CONFIG_items
               [("timezone", JStr "Asia/Tokyo"); ("verbose", JBool true)])
       = (["name"; "calendar_url"; "survey_url"; "timezone"; "skip_keywords";
           "default_responses"; "comment"] ++ added)%list.
Proof.
  apply (X11_default_keys_stay
           (Parsed (JObject [("timezone", JStr "Asia/Tokyo");
                             ("verbose", JBool true)]))).
  reflexivity.
Defined.

(** X12: a file that binds, of the seven keys, the time zone alone (other
    keys it may hold are not read) gives the default configuration with
    that time zone. *)
Theorem X12_timezone_override (override : pydict) (zone : string) :
  last_binding override "timezone" = Some (JStr zone) ->
  (forall k, In k ["name"; "calendar_url"; "survey_url"; "skip_keywords";
                   "default_responses"; "comment"] ->
             last_binding override k = None) ->
  exists d,
    load_config (Parsed (JObject override)) = inr d
    /\ config_view d = Some (with_timezone DEFAULT_CONFIG zone).
Proof.
  intros Hzone Hothers.
  exists (dict_merge DEFAULT_CONFIG_items override).
  split; [reflexivity|].
  unfold config_view. rewrite !dict_find_merge, Hzone.
  rewrite !Hothers by (simpl; auto 10).
  reflexivity.
Qed.

Lemma X12_timezone_override_witness :
  exists d,
    load_config (Parsed (JObject [("timezone", JStr "Asia/Tokyo");
                                  ("verbose", JBool true)])) = inr d
    /\ config_view d = Some (with_timezone DEFAULT_CONFIG "Asia/Tokyo").
Proof.
  apply (X12_timezone_override
           [("timezone", JStr "Asia/Tokyo"); ("verbose", JBool true)]
           "Asia/Tokyo").
  - reflexivity.
  - intros k Hk. simpl in Hk.
    repeat (destruct Hk as [<- | Hk]; [reflexivity|]). destruct Hk.
Defined.

(* ====================================================================== *)
(** * Further properties: the survey driver *)
(* ====================================================================== *)

Section Emits.
Context {B : Type} (W : World B).

Lemma emits_weaken {A : Type} (m : M B A) (Q Q' : list action -> Prop) :
  emits m Q -> (forall new, Q new -> Q' new) -> emits m Q'.
Proof.
  intros Hm HQ st. destruct (Hm st) as (new & Hnew & Hq).
  exists new. auto.
Qed.

Lemma emits_any {A : Type} (m : M B A) :
  only_calls (fun _ => True) m -> emits m (fun _ => True).
Proof.
  intros Hm st. destruct (Hm st) as (new & Hnew & _). now exists new.
Qed.

(** A call first: the log gets that call alone when it raises, and that
    call followed by the calls of the rest otherwise. *)
Lemma emits_call_then {A : Type} (a : action) (k : M B A)
    (Q : list action -> Prop) :
  emits k Q ->
  emits (call W a ;; k) (fun new => new = [a] \/ exists n, new = a :: n /\ Q n).
Proof.
  intros Hk st. unfold bind, call.
  destruct (perform W a (browser st)) as [[e|] b]; simpl.
  - exists [a]. auto.
  - match goal with |- context [k ?s] => destruct (Hk s) as (n & Hn & Hq) end.
    exists (a :: n). simpl in Hn. rewrite Hn, <- app_assoc. eauto.
Qed.

Lemma emits_print_then {A : Type} (line : string) (k : M B A)
    (Q : list action -> Prop) :
  emits k Q -> emits (print line ;; k) Q.
Proof.
  intros Hk st. unfold bind, print.
  match goal with |- context [k ?s] => destruct (Hk s) as (n & Hn & Hq) end.
  exists n. auto.
Qed.

(** A cleanup that is one call: that call ends the log, whatever the body
    did. *)
Lemma emits_finally_call {A : Type} (body : M B A) (a : action)
    (Q : list action -> Prop) :
  emits body Q ->
  emits (try_finally body (call W a))
        (fun new => exists n, new = (n ++ [a])%list /\ Q n).
Proof.
  intros Hb st. unfold try_finally, call.
  destruct (Hb st) as (n & Hn & Hq).
  destruct (body st) as [r st1]; simpl in *.
  destruct (perform W a (browser st1)) as [[e|] b]; simpl;
    exists (n ++ [a])%list; rewrite Hn, app_assoc; eauto.
Qed.

(** A handler after a body: its calls come after those of the body. *)
Lemma emits_try_except {A : Type} (body : M B A)
    (handler : Exception -> M B A) (Q Q' : list action -> Prop) :
  emits body Q ->
  (forall e, only_calls (fun _ => True) (handler e)) ->
  (forall n n', Q n -> Q' (n ++ n')%list) ->
  emits (try_except body handler) Q'.
Proof.
  intros Hb Hh HQ st. unfold try_except.
  destruct (Hb st) as (n & Hn & Hq).
  destruct (body st) as [[e|v] st1]; simpl in *.
  - destruct (Hh e st1) as (n' & Hn' & _).
    exists (n ++ n')%list. rewrite Hn', Hn, app_assoc. auto.
  - exists n. split; [assumption|].
    rewrite <- (app_nil_r n). auto.
Qed.

End Emits.

Section Lifecycle.
Context {B : Type} (W : World B).

Lemma call_then_eq {A : Type} (a : action) (k : M B A) (st : State B) :
  (call W a ;; k) st
  = match perform W a (browser st) with
    | (Some e, b) => (inl e, mkstate b (calls st ++ [a]) (stdout st))
    | (None, b) => k (mkstate b (calls st ++ [a]) (stdout st))
    end.
Proof.
  unfold bind, call.
  destruct (perform W a (browser st)) as [[e|] b]; reflexivity.
Qed.

Lemma finally_call_calls {A : Type} (body : M B A) (a : action)
    (st : State B) :
  calls (snd (try_finally body (call W a) st))
  = (calls (snd (body st)) ++ [a])%list.
Proof.
  unfold try_finally, call. destruct (body st) as [r st1]. simpl.
  destruct (perform W a (browser st1)) as [[e|] b]; reflexivity.
Qed.

End Lifecycle.

(** X13: the life of the browser in one run of the driver, call by call
    against what the browser answers.  Playwright is started first; if that
    raises, nothing else is called.  If it succeeds, the browser is launched
    (headless exactly when the run is not a dry run) and Playwright is
    stopped last, whatever happens.  If the launch raises, or the new page
    raises, the stop is the only further call: the browser is not closed.
    If both succeed, the survey is loaded and, whatever happens on the
    form, the browser is closed just before Playwright is stopped. *)
Theorem X13_browser_lifecycle {B : Type} (W : World B)
    (name lecture_time : string) (responses : list Z)
    (comment survey_url : string) (dry_run : bool) (st : State B) :
  exists new,
    calls (snd (submit_survey W name lecture_time responses comment
                  survey_url dry_run st))
    = (calls st ++ new)%list
    /\ lifecycle W dry_run survey_url (browser st) new.
Proof.
  unfold submit_survey, with_playwright, lifecycle.
  rewrite call_then_eq.
  destruct (perform W StartPlaywright (browser st)) as [[e0|] b0].
  { exists [StartPlaywright]. split; reflexivity. }
  rewrite finally_call_calls, call_then_eq. cbn [browser calls stdout].
  destruct (perform W (Launch (negb dry_run)) b0) as [[e1|] b1].
  { exists [StartPlaywright; Launch (negb dry_run); StopPlaywright].
    cbn [snd calls]. rewrite <- !app_assoc. split; reflexivity. }
  rewrite call_then_eq. cbn [browser calls stdout].
  destruct (perform W NewPage b1) as [[e2|] b2].
  { exists [StartPlaywright; Launch (negb dry_run); NewPage; StopPlaywright].
    cbn [snd calls]. rewrite <- !app_assoc. split; reflexivity. }
  rewrite finally_call_calls.
  match goal with
  | |- context [try_except ?body ?handler ?s] =>
      assert (Hform : exists n,
                 calls (snd (try_except body handler s))
                 = (calls s ++ Goto survey_url "networkidle" :: n)%list)
  end.
  { match goal with
    | |- context [try_except ?body ?handler ?s] =>
        destruct (emits_try_except body handler
                    (fun new => exists n,
                         new = Goto survey_url "networkidle" :: n)
                    (fun new => exists n,
                         new = Goto survey_url "networkidle" :: n)) with s
          as (new & Hnew & n & ->)
    end.
    - eapply emits_weaken.
      + apply emits_print_then, emits_call_then, emits_any.
        only_calls_script ltac:(exact I).
      + simpl. intros new [-> | (n & -> & _)]; eauto.
    - intros e. only_calls_script ltac:(exact I).
    - intros n n' (n0 & ->). simpl. eauto.
    - exists n. exact Hnew. }
  destruct Hform as (n & ->). cbn [calls].
  exists ([StartPlaywright; Launch (negb dry_run); NewPage;
           Goto survey_url "networkidle"] ++ n ++ [Close; StopPlaywright])%list.
  split; [|now exists n].
  rewrite <- !app_assoc. reflexivity.
Qed.

(** A run on which [new_page] raises: the browser that was launched is not
    closed, and the exception leaves the driver. *)
Example new_page_raises :
  submit_survey no_page_world "Your Name" "8AM" [5; 5; 5] ""
    (survey_url DEFAULT_CONFIG) false st0
  = (inl "Target closed",
     mkstate tt [StartPlaywright; Launch true; NewPage; StopPlaywright] []).
Proof. vm_compute. reflexivity. Qed.

Section Returns.
Context {B : Type} (W : World B).

Lemma bind_inr {A C : Type} (m : M B A) (k : A -> M B C) (st st' : State B)
    (c : C) :
  bind m k st = (inr c, st') ->
  exists a st1, m st = (inr a, st1) /\ k a st1 = (inr c, st').
Proof.
  unfold bind. destruct (m st) as [[e|a] st1]; [discriminate|]. eauto.
Qed.

Lemma call_inr (a : action) (st st' : State B) (u : unit) :
  call W a st = (inr u, st') -> calls st' = (calls st ++ [a])%list.
Proof.
  unfold call. destruct (perform W a (browser st)) as [[e|] b];
    [discriminate|]. now intros [= _ <-].
Qed.

Lemma call_inl (a : action) (st st' : State B) (e : Exception) :
  call W a st = (inl e, st') -> calls st' = (calls st ++ [a])%list.
Proof.
  unfold call. destruct (perform W a (browser st)) as [[e'|] b];
    [|discriminate]. now intros [= _ <-].
Qed.

Lemma print_inr (line : string) (st st' : State B) (u : unit) :
  print line st = (inr u, st') -> calls st' = calls st.
Proof. unfold print. now intros [= _ <-]. Qed.

Lemma ret_inr {A : Type} (a c : A) (st st' : State B) :
  @ret B A a st = (inr c, st') -> a = c /\ calls st' = calls st.
Proof. unfold ret. now intros [= -> ->]. Qed.

Lemma try_finally_inr {A : Type} (body : M B A) (cleanup : M B unit)
    (st st' : State B) (a : A) :
  try_finally body cleanup st = (inr a, st') ->
  exists st1 u, body st = (inr a, st1) /\ cleanup st1 = (inr u, st').
Proof.
  unfold try_finally. destruct (body st) as [r st1].
  destruct (cleanup st1) as [[e|u] st2] eqn:Hc; [discriminate|].
  intros [= -> ->]. eauto.
Qed.

Lemma try_except_inr {A : Type} (body : M B A)
    (handler : Exception -> M B A) (st st' : State B) (a : A) :
  try_except body handler st = (inr a, st') ->
  body st = (inr a, st')
  \/ exists e st1, body st = (inl e, st1) /\ handler e st1 = (inr a, st').
Proof.
  unfold try_except. destruct (body st) as [[e|v] st1]; eauto.
Qed.

Lemma likert_lookup_inr (d : list (Z * string)) (r : Z) (text : string)
    (st st' : State B) :
  likert_lookup d r st = (inr text, st') -> In (r, text) d /\ st' = st.
Proof.
  induction d as [|[k v] d IH]; simpl; [discriminate|].
  destruct (k =? r) eqn:E.
  - apply Z.eqb_eq in E. subst k. intros [= -> ->]. auto.
  - intros Hl. destruct (IH Hl). auto.
Qed.

Lemma likert_loop_inr (pairs : list (string * Z)) (i : Z)
    (st st' : State B) (u : unit) :
  likert_loop W i pairs st = (inr u, st') ->
  exists tr, calls st' = (calls st ++ tr)%list /\ likert_trace i pairs tr.
Proof.
  revert i st.
  induction pairs as [|[q r] rest IH]; intros i st; cbn [likert_loop].
  - intros Hret. apply ret_inr in Hret as [_ Hc].
    exists []. rewrite app_nil_r. split; [assumption | constructor].
  - intros Hrun.
    apply bind_inr in Hrun as (text & s1 & Hlook & Hrun).
    apply likert_lookup_inr in Hlook as [Hin ->].
    apply bind_inr in Hrun as (u1 & s2 & Hprint & Hrun).
    apply print_inr in Hprint.
    apply bind_inr in Hrun as (u2 & s3 & Hclick & Hrun).
    destruct (IH _ _ Hrun) as (tr & Htr & Htrace).
    apply try_except_inr in Hclick as [Hok | (e & s' & Hfail & Hfb)].
    + apply call_inr in Hok.
      exists (scoped_click q text :: tr). split.
      * rewrite Htr, Hok, Hprint, <- app_assoc. reflexivity.
      * now apply likert_scoped.
    + apply call_inl in Hfail. apply call_inr in Hfb.
      exists (scoped_click q text :: fallback_click text i :: tr). split.
      * rewrite Htr, Hfb, Hfail, Hprint, <- !app_assoc. reflexivity.
      * now apply likert_fallback.
Qed.

End Returns.

(** Reads a run that returned back into the calls it made. *)
Ltac returned H :=
  lazymatch type of H with
  | bind _ _ _ = (inr _, _) =>
      let a := fresh "a" in
      let s := fresh "s" in
      let H1 := fresh "Hrun" in
      apply bind_inr in H as (a & s & H1 & H);
      returned H1; returned H
  | call _ _ _ = (inr _, _) => apply call_inr in H
  | print _ _ = (inr _, _) => apply print_inr in H
  | ret _ _ = (inr _, _) =>
      let Hv := fresh "Hv" in
      apply ret_inr in H as [Hv H]; try discriminate Hv
  | try_finally _ _ _ = (inr _, _) =>
      let s := fresh "s" in
      let u := fresh "u" in
      let H1 := fresh "Hrun" in
      apply try_finally_inr in H as (s & u & H1 & H);
      returned H1; returned H
  | likert_loop _ _ _ _ = (inr _, _) =>
      let tr := fresh "tr" in
      let Htr := fresh "Htrace" in
      apply likert_loop_inr in H as (tr & H & Htr)
  | try_except _ _ _ = (inr _, _) =>
      let e := fresh "e" in
      let s := fresh "s" in
      let H1 := fresh "Hrun" in
      apply try_except_inr in H as [H | (e & s & H1 & H)];
      [returned H | returned H]
  | _ => idtac
  end.



Section Outcomes.
Context {B : Type} (W : World B).

Lemma yields_ret {A : Type} (a : A) (P : A -> Prop) :
  P a -> yields (@ret B A a) P.
Proof. intros Ha st. now exists a. Qed.

Lemma yields_print (line : string) (P : unit -> Prop) :
  P tt -> yields (@print B line) P.
Proof. intros Ha st. now exists tt. Qed.

Lemma yields_call (a : action) (P : unit -> Prop) :
  never_raises W a -> P tt -> yields (call W a) P.
Proof.
  intros Hq Ha st. exists tt. unfold call.
  specialize (Hq (browser st)).
  destruct (perform W a (browser st)) as [[e|] b]; [discriminate | auto].
Qed.

Lemma yields_bind {A C : Type} (m : M B A) (k : A -> M B C)
    (P : A -> Prop) (Q : C -> Prop) :
  yields m P -> (forall a, P a -> yields (k a) Q) -> yields (bind m k) Q.
Proof.
  intros Hm Hk st. unfold bind.
  destruct (Hm st) as (a & Ha & Hp).
  destruct (m st) as [r st1]. simpl in Ha. subst r.
  exact (Hk a Hp st1).
Qed.

Lemma yields_if {A : Type} (b : bool) (m1 m2 : M B A) (P : A -> Prop) :
  yields m1 P -> yields m2 P -> yields (if b then m1 else m2) P.
Proof. now destruct b. Qed.

Lemma yields_try_except {A : Type} (body : M B A)
    (handler : Exception -> M B A) (P : A -> Prop) :
  yields body P -> yields (try_except body handler) P.
Proof.
  intros Hb st. unfold try_except.
  destruct (Hb st) as (a & Ha & Hp).
  destruct (body st) as [r st1]. simpl in Ha. subst r. now exists a.
Qed.

(** A handler that always returns makes the whole always return. *)
Lemma yields_handled {A : Type} (body : M B A)
    (handler : Exception -> M B A) :
  (forall e, yields (handler e) (fun _ => True)) ->
  yields (try_except body handler) (fun _ => True).
Proof.
  intros Hh st. unfold try_except.
  destruct (body st) as [[e|a] st1]; [apply Hh | now exists a].
Qed.

Lemma yields_try_finally {A : Type} (body : M B A) (cleanup : M B unit)
    (P : A -> Prop) :
  yields body P -> yields cleanup (fun _ => True) ->
  yields (try_finally body cleanup) P.
Proof.
  intros Hb Hc st. unfold try_finally.
  destruct (Hb st) as (a & Ha & Hp).
  destruct (body st) as [r st1]. simpl in Ha. subst r.
  destruct (Hc st1) as (u & Hu & _).
  destruct (cleanup st1) as [r st2]. simpl in Hu. subst r. now exists a.
Qed.

Lemma likert_lookup_valid (r : Z) :
  valid_rating r -> yields (@likert_lookup B likert_map r) (fun _ => True).
Proof.
  intros Hr st. unfold valid_rating in Hr.
  assert (Hcases : r = 1 \/ r = 2 \/ r = 3 \/ r = 4 \/ r = 5) by lia.
  destruct Hcases as [-> | [-> | [-> | [-> | ->]]]]; simpl; eauto.
Qed.

Lemma likert_loop_quiet (i : Z) (pairs : list (string * Z)) :
  (forall a, never_raises W a) ->
  Forall (fun p => valid_rating (snd p)) pairs ->
  yields (likert_loop W i pairs) (fun _ => True).
Proof.
  intros Hq Hvalid. revert i.
  induction Hvalid as [|[q r] rest Hr _ IH]; intros i; cbn [likert_loop].
  - now apply yields_ret.
  - eapply yields_bind; [now apply likert_lookup_valid|]. intros text _.
    eapply yields_bind; [now apply (yields_print _ (fun _ => True))|].
    intros _ _.
    eapply yields_bind; [|intros _ _; apply IH].
    apply yields_try_except.
    now apply (yields_call _ (fun _ => True)).
Qed.

Lemma never_returns_bind_l {A C : Type} (m : M B A) (k : A -> M B C) :
  never_returns m -> never_returns (bind m k).
Proof.
  intros Hm st. unfold bind. destruct (Hm st) as (e & He).
  destruct (m st) as [r st1]. simpl in He. subst r. now exists e.
Qed.

Lemma never_returns_bind_r {A C : Type} (m : M B A) (k : A -> M B C) :
  (forall a, never_returns (k a)) -> never_returns (bind m k).
Proof.
  intros Hk st. unfold bind.
  destruct (m st) as [[e|a] st1]; [now exists e | apply Hk].
Qed.

Lemma likert_lookup_invalid (r : Z) :
  ~ valid_rating r -> never_returns (@likert_lookup B likert_map r).
Proof.
  intros Hr st. unfold valid_rating in Hr. exists (str_of_Z r).
  unfold likert_map, likert_lookup.
  repeat match goal with
         | |- context [?k =? r] =>
             destruct (k =? r) eqn:?E;
             [apply Z.eqb_eq in E; lia | clear E]
         end.
  reflexivity.
Qed.

Lemma likert_loop_invalid (i : Z) (pairs : list (string * Z)) :
  (exists q r, In (q, r) pairs /\ ~ valid_rating r) ->
  never_returns (likert_loop W i pairs).
Proof.
  intros (q & r & Hin & Hr). revert i.
  induction pairs as [|[q0 r0] rest IH]; intros i; [destruct Hin|].
  cbn [likert_loop]. destruct Hin as [[= -> ->] | Hin].
  - now apply never_returns_bind_l, likert_lookup_invalid.
  - apply never_returns_bind_r. intros text.
    apply never_returns_bind_r. intros _.
    apply never_returns_bind_r. intros _. now apply IH.
Qed.

(** Nothing comes after a computation that always raises. *)
Lemma only_calls_bind_stuck {A C : Type} (P : action -> Prop) (m : M B A)
    (k : A -> M B C) :
  only_calls P m -> never_returns m -> only_calls P (bind m k).
Proof.
  intros Hm Hnever st. unfold bind.
  destruct (Hm st) as (new & Hnew & HP). destruct (Hnever st) as (e & He).
  destruct (m st) as [r st1]. simpl in *. subst r. now exists new.
Qed.

End Outcomes.

Lemma likert_trace_valid (i : Z) (pairs : list (string * Z))
    (tr : list action) :
  likert_trace i pairs tr ->
  forall q r, In (q, r) pairs -> valid_rating r.
Proof.
  assert (Hmap : forall r text, In (r, text) likert_map -> valid_rating r).
  { unfold valid_rating. intros r text Hin. simpl in Hin.
    repeat (destruct Hin as [[= <- _] | Hin]; [lia|]). destruct Hin. }
  induction 1 as [i | i q0 r0 text rest tr Hin _ IH
                    | i q0 r0 text rest tr Hin _ IH];
    intros q r Hp; [destruct Hp | |];
    (destruct Hp as [[= <- <-] | Hp]; [now apply (Hmap r0 text) | eauto]).
Qed.

Lemma rated_question (responses : list Z) (r : Z) :
  In r (firstn 3 responses) ->
  exists q, In (q, r) (combine questions responses).
Proof.
  destruct responses as [|r1 [|r2 [|r3 rest]]]; simpl;
    intuition (subst; eauto 10).
Qed.

Lemma question_rated (responses : list Z) (q : string) (r : Z) :
  In (q, r) (combine questions responses) -> In r (firstn 3 responses).
Proof.
  destruct responses as [|r1 [|r2 [|r3 rest]]]; simpl;
    intuition congruence.
Qed.

(** X15: a rating outside 1..5 among the first three makes the driver fail
    before it leaves page 2: the run does not return [True], and the
    page-2 chain is never clicked. *)
Theorem X15_invalid_rating_never_submits {B : Type} (W : World B)
    (name lecture_time : string) (responses : list Z)
    (comment survey_url : string) (dry_run : bool) (st : State B) :
  (exists r, In r (firstn 3 responses) /\ ~ valid_rating r) ->
  fst (submit_survey W name lecture_time responses comment survey_url
         dry_run st) <> inr true
  /\ exists new,
       calls (snd (submit_survey W name lecture_time responses comment
                     survey_url dry_run st))
       = (calls st ++ new)%list
       /\ Forall (fun a => a <> Click submit_button) new.
Proof.
  intros (r & Hin & Hr).
  destruct (rated_question responses r Hin) as (q & Hq).
  split.
  - intros Htrue.
    destruct (submit_survey W name lecture_time responses comment survey_url
                dry_run st) as [res st'] eqn:Hrun.
    simpl in Htrue. subst res.
    unfold submit_survey, with_playwright in Hrun.
    destruct dry_run, (String.eqb comment "");
      cbv beta iota delta [negb] in Hrun;
      returned Hrun;
      match goal with
      | Ht : likert_trace _ _ _ |- _ =>
          exact (Hr (likert_trace_valid _ _ _ Ht q r Hq))
      end.
  - unfold submit_survey, with_playwright.
    repeat first
      [ apply only_calls_ret
      | apply only_calls_print
      | apply only_calls_call; discriminate
      | apply only_calls_try_except; [|intros ?]
      | apply only_calls_try_finally
      | match goal with
        | |- only_calls _ (bind (likert_loop _ _ _) _) =>
            apply only_calls_bind_stuck;
            [ apply only_calls_likert_loop; intros; discriminate
            | apply likert_loop_invalid; eauto ]
        | |- only_calls _ (if ?b then _ else _) => destruct b
        end
      | apply only_calls_bind; [|intros ?] ].
Qed.

Lemma X15_invalid_rating_never_submits_witness :
  fst (submit_survey conference_world "Your Name" "8AM" [5; 0; 5] ""
         (survey_url DEFAULT_CONFIG) false st0) <> inr true
  /\ exists new,
       calls (snd (submit_survey conference_world "Your Name" "8AM" [5; 0; 5]
                     "" (survey_url DEFAULT_CONFIG) false st0))
       = (calls st0 ++ new)%list
       /\ Forall (fun a => a <> Click submit_button) new.
Proof.
  apply (X15_invalid_rating_never_submits conference_world "Your Name" "8AM"
           [5; 0; 5] "" (survey_url DEFAULT_CONFIG) false st0).
  exists 0. split; [simpl; auto | unfold valid_rating; lia].
Defined.

(** X16: nothing that goes wrong on the form leaves the driver as an
    exception: if starting and stopping Playwright, launching the browser,
    opening the page and closing the browser do not raise (and pausing, in
    a dry run), the driver returns [True] or [False]. *)
Theorem X16_failures_are_returned {B : Type} (W : World B)
    (name lecture_time : string) (responses : list Z)
    (comment survey_url : string) (dry_run : bool) (st : State B) :
  never_raises W StartPlaywright -> never_raises W StopPlaywright ->
  never_raises W (Launch (negb dry_run)) -> never_raises W NewPage ->
  never_raises W Close ->
  (dry_run = true -> never_raises W Pause) ->
  exists result,
    fst (submit_survey W name lecture_time responses comment survey_url
           dry_run st) = inr result.
Proof.
  intros Hstart Hstop Hlaunch Hpage Hclose Hpause.
  assert (Hyields : yields (submit_survey W name lecture_time responses
                              comment survey_url dry_run) (fun _ => True)).
  { unfold submit_survey, with_playwright.
    eapply yields_bind; [now apply (yields_call W _ (fun _ => True))|].
    intros _ _.
    apply yields_try_finally;
      [|now apply (yields_call W _ (fun _ => True))].
    eapply yields_bind; [now apply (yields_call W _ (fun _ => True))|].
    intros _ _.
    eapply yields_bind; [now apply (yields_call W _ (fun _ => True))|].
    intros _ _.
    apply yields_try_finally;
      [|now apply (yields_call W _ (fun _ => True))].
    apply yields_handled. intros e.
    eapply yields_bind; [now apply (yields_print _ (fun _ => True))|].
    intros _ _.
    apply (yields_bind _ _ (fun _ => True)); [|intros _ _; now apply yields_ret].
    destruct dry_run; [|now apply yields_ret].
    eapply yields_bind; [now apply (yields_print _ (fun _ => True))|].
    intros _ _. apply yields_call; auto. }
  destruct (Hyields st) as (result & Hres & _). now exists result.
Qed.

Lemma X16_failures_are_returned_witness :
  exists result,
    fst (submit_survey conference_world "Your Name" "8AM" [5; 0; 5] ""
           (survey_url DEFAULT_CONFIG) false st0) = inr result.
Proof.
  apply (X16_failures_are_returned conference_world "Your Name" "8AM"
           [5; 0; 5] "" (survey_url DEFAULT_CONFIG) false st0);
    try (intros b; reflexivity).
  discriminate.
Defined.

(** X17: on a browser that never raises, the driver returns [True] when
    each of the first three ratings is in 1..5. *)
Theorem X17_quiet_browser_succeeds {B : Type} (W : World B)
    (name lecture_time : string) (responses : list Z)
    (comment survey_url : string) (dry_run : bool) (st : State B) :
  (forall a, never_raises W a) ->
  Forall valid_rating (firstn 3 responses) ->
  fst (submit_survey W name lecture_time responses comment survey_url
         dry_run st) = inr true.
Proof.
  intros Hq Hvalid.
  assert (Hpairs : Forall (fun p => valid_rating (snd p))
                     (combine questions responses)).
  { apply Forall_forall. intros [q r] Hin. simpl.
    rewrite Forall_forall in Hvalid.
    apply Hvalid, (question_rated responses q r Hin). }
  assert (Hyields : yields (submit_survey W name lecture_time responses
                              comment survey_url dry_run)
                      (fun result => result = true)).
  { unfold submit_survey, with_playwright.
    repeat first
      [ now apply yields_ret
      | apply yields_try_except
      | apply yields_try_finally
      | now apply (yields_call W _ (fun _ => True))
      | now apply (yields_print _ (fun _ => True))
      | match goal with
        | |- yields (likert_loop _ _ _) _ => now apply likert_loop_quiet
        | |- yields (if ?b then _ else _) _ => destruct b
        end
      | eapply yields_bind; [|intros ? _] ]. }
  destruct (Hyields st) as (result & Hres & ->). exact Hres.
Qed.

Lemma X17_quiet_browser_succeeds_witness :
  fst (submit_survey conference_world "Your Name" "8AM" [5; 4; 3] "Thanks"
         (survey_url DEFAULT_CONFIG) true st0) = inr true.
Proof.
  apply (X17_quiet_browser_succeeds conference_world "Your Name" "8AM"
           [5; 4; 3] "Thanks" (survey_url DEFAULT_CONFIG) true st0).
  - intros a b. reflexivity.
  - repeat constructor; unfold valid_rating; lia.
Defined.

Lemma combine_questions_firstn (responses : list Z) :
  combine questions responses = combine questions (firstn 3 responses).
Proof. destruct responses as [|r1 [|r2 [|r3 rest]]]; reflexivity. Qed.

(** X18: the driver reads the first three ratings only: a fourth rating and
    any after it change nothing of what the driver does or returns (and
    with fewer than three, only as many questions are answered). *)
Theorem X18_ratings_after_the_third {B : Type} (W : World B)
    (name lecture_time : string) (responses : list Z)
    (comment survey_url : string) (dry_run : bool) (st : State B) :
  submit_survey W name lecture_time responses comment survey_url dry_run st
  = submit_survey W name lecture_time (firstn 3 responses) comment survey_url
      dry_run st
  /\ List.length (combine questions responses)
     = Nat.min 3 (List.length responses).
Proof.
  split.
  - unfold submit_survey.
    now rewrite (combine_questions_firstn responses).
  - now rewrite length_combine.
Qed.

(* ====================================================================== *)
(** * Further properties: the entry point *)
(* ====================================================================== *)

(** X19: a dry run never clicks the page-2 chain: neither the driver called
    with [dry_run=True] nor [main] run with [--dry-run], whatever the
    calendar, the configuration and [--force]. *)
Theorem X19_dry_run_never_submits :
  (forall (B : Type) (W : World B) (name lecture_time : string)
          (responses : list Z) (comment survey_url : string),
      only_calls (fun a => a <> Click submit_button)
        (submit_survey W name lecture_time responses comment survey_url
           true))
  /\ (forall (L : Lowercase) (B : Type) (W : World B) (CONFIG : Config)
             (time : string) (force : bool),
        only_calls (fun a => a <> Click submit_button)
          (main W CONFIG (mkargs time true force))).
Proof.
  split.
  - intros. apply dry_run_never_submits.
  - intros. apply only_calls_main. apply dry_run_never_submits.
Qed.

(** The status a run of lines 309-347 ends with is 0 or 1. *)
Lemma exit_status_0_or_1 `{Lowercase} {B : Type} (W : World B)
    (CONFIG : Config) (args : Args) (st : State B) :
  exit_status (fst (main W CONFIG args st)) = 0
  \/ exit_status (fst (main W CONFIG args st)) = 1.
Proof.
  assert (Hdrives : drives W CONFIG args st (main W CONFIG args st) ->
                    exit_status (fst (main W CONFIG args st)) = 0
                    \/ exit_status (fst (main W CONFIG args st)) = 1).
  { intros (_ & _ & _ & ->).
    destruct (fst (submit_survey _ _ _ _ _ _ _ _)) as [e|[|]]; auto. }
  destruct (force args) eqn:Hforce; [now apply Hdrives, main_forced|].
  destruct (fetch W (calendar_url CONFIG)) as [e|cal] eqn:Hfetch.
  - right. now apply (main_fetch_failed W CONFIG args st e).
  - destruct (classification W CONFIG args cal) eqn:Hclass.
    + apply Hdrives, (main_submits W CONFIG args st cal); auto.
    + left. now apply (main_skips W CONFIG args st cal).
Qed.

(** X20: once the arguments are parsed, whenever [main] returns, the value
    it returns is 0 or 1, whatever the calendar source and the browser
    do. *)
Theorem X20_main_returns_0_or_1 `{Lowercase} {B : Type} (W : World B)
    (CONFIG : Config) (args : Args) (st st' : State B) (code : Z) :
  main W CONFIG args st = (inr code, st') -> code = 0 \/ code = 1.
Proof.
  intros Hrun.
  pose proof (exit_status_0_or_1 W CONFIG args st) as Hstatus.
  rewrite Hrun in Hstatus. exact Hstatus.
Qed.

Lemma X20_main_returns_0_or_1_witness :
  fst (@main ascii_lowercase unit timeout_world DEFAULT_CONFIG
         (mkargs "8AM" false false) st0) = inr 1
  /\ (1 = 0 \/ 1 = 1).
Proof.
  split; [vm_compute; reflexivity|].
  apply (@X20_main_returns_0_or_1 ascii_lowercase unit timeout_world
           DEFAULT_CONFIG (mkargs "8AM" false false) st0
           (snd (@main ascii_lowercase unit timeout_world DEFAULT_CONFIG
                   (mkargs "8AM" false false) st0))).
  vm_compute. reflexivity.
Defined.

(** X21: without [--force], when the calendar is fetched and is one the
    filter reads without raising (every component has at most one DTSTART,
    a date or a date-time, as [Calendar] has them), the run leaves the
    browser alone exactly when the filter returns no event for today's
    window or one of the events returned carries a skip keyword. *)
Theorem X21_survey_left_alone_iff `{Lowercase} {B : Type} (W : World B)
    (CONFIG : Config) (args : Args) (st : State B) (cal : Calendar) :
  fetch W (calendar_url CONFIG) = inr cal -> force args = false ->
  let events :=
    get_todays_events (clock W) cal (zone_of W (timezone CONFIG))
      (Some (time args)) in
  calls (snd (main W CONFIG args st)) = calls st
  <-> events = [] \/ vetoed events (skip_keywords CONFIG) = true.
Proof.
  intros Hfetch Hforce events.
  assert (Hclass : classification W CONFIG args cal
                   = negb (Nat.eqb (List.length events) 0)
                     && negb (vetoed events (skip_keywords CONFIG)))
    by apply decision_eq.
  destruct (classification W CONFIG args cal) eqn:Hc.
  - symmetry in Hclass.
    apply andb_true_iff in Hclass as [Hlen Hveto].
    apply negb_true_iff in Hlen, Hveto.
    destruct (main_submits W CONFIG args st cal Hfetch (or_introl Hc))
      as (_ & _ & Hcount & _).
    split.
    + intros Hcalls. rewrite Hcalls in Hcount. lia.
    + intros [Hnil | Hv]; [|congruence].
      rewrite Hnil in Hlen. discriminate.
  - destruct (main_skips W CONFIG args st cal Hfetch Hc Hforce)
      as (_ & _ & Hcalls).
    split; [|intros _; exact Hcalls].
    intros _. symmetry in Hclass.
    apply andb_false_iff in Hclass as [Hlen | Hveto].
    + left. apply negb_false_iff, Nat.eqb_eq in Hlen.
      now apply length_zero_iff_nil.
    + right. now apply negb_false_iff.
Qed.

Lemma X21_survey_left_alone_iff_witness :
  calls (snd (@main ascii_lowercase unit admin_world DEFAULT_CONFIG
                (mkargs "8AM" false false) st0)) = calls st0
  <-> get_todays_events (clock admin_world)
        (vcalendar [vevent "Admin Day" (DDateTime (naive_at 8))])
        (zone_of admin_world (timezone DEFAULT_CONFIG)) (Some "8AM") = []
      \/ @vetoed ascii_lowercase
           (get_todays_events (clock admin_world)
              (vcalendar [vevent "Admin Day" (DDateTime (naive_at 8))])
              (zone_of admin_world (timezone DEFAULT_CONFIG)) (Some "8AM"))
           (skip_keywords DEFAULT_CONFIG) = true.
Proof.
  apply (@X21_survey_left_alone_iff ascii_lowercase unit admin_world
           DEFAULT_CONFIG (mkargs "8AM" false false) st0
           (vcalendar [vevent "Admin Day" (DDateTime (naive_at 8))]));
    reflexivity.
Defined.

Lemma is_substring_of_empty (needle : string) :
  is_substring needle "" -> needle = "".
Proof.
  intros (pre & post & Heq).
  destruct pre; [|discriminate]. destruct needle; [reflexivity|discriminate].
Qed.

(** X22: a component without a SUMMARY gives an event with the empty
    summary, which no keyword vetoes unless its lowercase form is empty:
    alone in the list, such an event makes a conference day, and the reason
    lists an empty name. *)
Theorem X22_missing_summary `{Lowercase} (c : Component) (v : dt_value)
    (kws : list string) :
  SUMMARY c = None ->
  (forall k, In k kws -> lower k <> "") ->
  is_conference_day [mkevent (summary_of c) v] kws
  = (true, "Conference day detected. Events: ").
Proof.
  intros Hnone Hkws. unfold summary_of. rewrite Hnone.
  unfold is_conference_day.
  assert (Hloop : skip_loop [mkevent "" v] kws = None).
  { apply skip_loop_none. intros e k [<- | []] Hk Hc.
    unfold contains_ci in Hc. simpl in Hc. rewrite lower_empty in Hc.
    exact (Hkws k Hk (is_substring_of_empty _ Hc)). }
  now rewrite Hloop.
Qed.

Lemma X22_missing_summary_witness :
  @is_conference_day ascii_lowercase
    [mkevent (summary_of (mkcomponent "VEVENT" (Some Jan_1) None [])) Jan_1]
    ["admin"; "wellness"]
  = (true, "Conference day detected. Events: ").
Proof.
  apply (@X22_missing_summary ascii_lowercase
           (mkcomponent "VEVENT" (Some Jan_1) None []) Jan_1
           ["admin"; "wellness"]).
  - reflexivity.
  - intros k [<- | [<- | []]]; discriminate.
Defined.
